(** * Smart Job Portal: page behaviour of [static/js/script.js]

    A shallow embedding of the browser script: the handlers become functions
    on an explicit page state, a remote call becomes a request value plus the
    callbacks that run when it settles, and JavaScript strings are sequences
    of UTF-16 code units. *)

From Stdlib Require Import ZArith NArith List String Ascii Bool Lia.
Import ListNotations.

Set Implicit Arguments.

(** ** JavaScript values used by the script *)

Module JS.

(** A string is a sequence of UTF-16 code units. *)
Definition code_unit := N.
Definition jstring := list code_unit.

(** An ASCII literal of the source, as code units. *)
Definition js (s : string) : jstring :=
  map N_of_ascii (list_ascii_of_string s).

(** ECMAScript WhiteSpace and LineTerminator code points: what
    [String.prototype.trim] removes and what [\s] matches. *)
Definition is_space (c : code_unit) : bool :=
  ((9 <=? c) && (c <=? 13) || (c =? 32) || (c =? 160) || (c =? 5760)
   || (8192 <=? c) && (c <=? 8202) || (c =? 8232) || (c =? 8233)
   || (c =? 8239) || (c =? 8287) || (c =? 12288) || (c =? 65279))%N.

Fixpoint drop_spaces (s : jstring) : jstring :=
  match s with
  | c :: s' => if is_space c then drop_spaces s' else s
  | [] => []
  end.

(** [s.trim()] *)
Definition trim (s : jstring) : jstring :=
  rev (drop_spaces (rev (drop_spaces s))).

Fixpoint starts_with (pat s : jstring) : bool :=
  match pat, s with
  | [], _ => true
  | p :: pat', c :: s' => (p =? c)%N && starts_with pat' s'
  | _ :: _, [] => false
  end.

(** [s.replace(pat, rep)] with a string pattern: the first occurrence only. *)
Fixpoint replace (pat rep s : jstring) {struct s} : jstring :=
  if starts_with pat s then rep ++ skipn (List.length pat) s
  else match s with
       | c :: s' => c :: replace pat rep s'
       | [] => []
       end.

(** [parts.join(sep)] *)
Fixpoint join (sep : jstring) (parts : list jstring) : jstring :=
  match parts with
  | [] => []
  | [p] => p
  | p :: rest => p ++ sep ++ join sep rest
  end.

Definition digit (d : N) : code_unit := (48 + d)%N.

Fixpoint uint_codes (u : Decimal.uint) : jstring :=
  match u with
  | Decimal.Nil => []
  | Decimal.D0 u' => digit 0 :: uint_codes u'
  | Decimal.D1 u' => digit 1 :: uint_codes u'
  | Decimal.D2 u' => digit 2 :: uint_codes u'
  | Decimal.D3 u' => digit 3 :: uint_codes u'
  | Decimal.D4 u' => digit 4 :: uint_codes u'
  | Decimal.D5 u' => digit 5 :: uint_codes u'
  | Decimal.D6 u' => digit 6 :: uint_codes u'
  | Decimal.D7 u' => digit 7 :: uint_codes u'
  | Decimal.D8 u' => digit 8 :: uint_codes u'
  | Decimal.D9 u' => digit 9 :: uint_codes u'
  end.

Definition N_codes (n : N) : jstring := uint_codes (N.to_uint n).

(** A number as the script meets it: an integer (exactly representable, far
    below 2^53 in every use here) or NaN. [Number_toString] is the string a
    template literal interpolates. *)
Inductive number :=
| Int (z : Z)
| NaN.

Definition Number_toString (x : number) : jstring :=
  match x with
  | Int z => if (z <? 0)%Z then 45%N :: N_codes (Z.abs_N z)
             else N_codes (Z.abs_N z)
  | NaN => js "NaN"
  end.

(** [x.toFixed(2)] for the non-negative quotient [x = num / den]: the integer
    [n] for which [n / 100 - x] is closest to zero, the larger one on a tie.
    The result is the decimal string of [n / 100] with two fraction digits; it
    is kept here as the count [n] of hundredths, with its rendering. *)
Definition toFixed2 (num den : N) : N :=
  ((200 * num + den) / (2 * den))%N.

Definition fixed2_string (n : N) : jstring :=
  N_codes (n / 100) ++ js "." ++ [digit ((n mod 100) / 10); digit (n mod 10)].

End JS.

(** ** Regular expressions of the script

    The literals of the source are written in a small abstract syntax and run
    by derivatives. The script uses no flags, so matching is by code unit. *)

Module Regex.
Import JS.

Inductive class_item :=
| One (c : code_unit)         (* a single character *)
| Range (lo hi : code_unit)   (* lo-hi *)
| Space.                      (* \s *)
Arguments One c%_N.
Arguments Range lo%_N hi%_N.

Definition item_has (i : class_item) (c : code_unit) : bool :=
  match i with
  | One d => (c =? d)%N
  | Range lo hi => ((lo <=? c) && (c <=? hi))%N
  | Space => is_space c
  end.

Inductive regex :=
| Void
| Eps
| Class (negated : bool) (items : list class_item)   (* [...] and [^...] *)
| Cat (r1 r2 : regex)
| Alt (r1 r2 : regex)
| Star (r : regex).

Definition class_has (negated : bool) (items : list class_item)
  (c : code_unit) : bool :=
  xorb negated (existsb (fun i => item_has i c) items).

(** A literal character, [r+], and the class of every code unit. *)
Definition Lit (c : code_unit) : regex := Class false [One c].
Arguments Lit c%_N.
Definition Plus (r : regex) : regex := Cat r (Star r).
Definition Any : regex := Class true [].

Fixpoint nullable (r : regex) : bool :=
  match r with
  | Void => false
  | Eps => true
  | Class _ _ => false
  | Cat r1 r2 => nullable r1 && nullable r2
  | Alt r1 r2 => nullable r1 || nullable r2
  | Star _ => true
  end.

Fixpoint deriv (c : code_unit) (r : regex) : regex :=
  match r with
  | Void => Void
  | Eps => Void
  | Class negated items => if class_has negated items c then Eps else Void
  | Cat r1 r2 =>
      Alt (Cat (deriv c r1) r2) (if nullable r1 then deriv c r2 else Void)
  | Alt r1 r2 => Alt (deriv c r1) (deriv c r2)
  | Star r1 => Cat (deriv c r1) (Star r1)
  end.

Fixpoint accepts (r : regex) (s : jstring) : bool :=
  match s with
  | [] => nullable r
  | c :: s' => accepts (deriv c r) s'
  end.

(** [/^r$/.test(s)]: the whole of [s] matches [r]. *)
Definition test_anchored (r : regex) (s : jstring) : bool := accepts r s.

(** [/r/.test(s)]: some substring of [s] matches [r]. *)
Definition test (r : regex) (s : jstring) : bool :=
  accepts (Cat (Star Any) (Cat r (Star Any))) s.

(** The declarative meaning of a pattern, against which [accepts] is
    proved. *)
Inductive matches : regex -> jstring -> Prop :=
| m_eps : matches Eps []
| m_class negated items c :
    class_has negated items c = true -> matches (Class negated items) [c]
| m_cat r1 r2 s1 s2 :
    matches r1 s1 -> matches r2 s2 -> matches (Cat r1 r2) (s1 ++ s2)
| m_alt_l r1 r2 s : matches r1 s -> matches (Alt r1 r2) s
| m_alt_r r1 r2 s : matches r2 s -> matches (Alt r1 r2) s
| m_star_nil r : matches (Star r) []
| m_star_app r s1 s2 :
    matches r s1 -> matches (Star r) s2 -> matches (Star r) (s1 ++ s2).

End Regex.

(** ** The page and its handlers *)

Module Portal.
Import JS Regex.

(** *** Remote calls

    [$.ajax] and [$.get] return at once; the call settles later, and jQuery
    then runs the [success] callback with the decoded response or the [error]
    callback. [$.get(url, data, fn)] registers a [success] callback only. *)

Inductive ajax_result (A : Type) :=
| Done (data : A)
| Failed.
Arguments Failed {A}.

Record callbacks (A S : Type) := {
  success : option (A -> S -> S);
  error : option (S -> S)
}.

Definition settle {A S : Type} (cb : callbacks A S) (r : ajax_result A)
  (st : S) : S :=
  match r with
  | Done data =>
      match success cb with Some k => k data st | None => st end
  | Failed =>
      match error cb with Some k => k st | None => st end
  end.

Record file := { file_name : jstring; file_size : N }.

Inductive part :=
| Field (v : jstring)
| Upload (f : file).

Inductive request :=
| Get (url : jstring) (query : list (jstring * jstring))
| Post (url : jstring) (body : list (jstring * part)).

(** *** Page state *)

(** One alert element of the [.notifications] container. *)
Record notification := {
  title : jstring;
  message : jstring;
  type : jstring
}.

(** A node of the document: a text node, or an element with its tag name,
    the tokens of its class attribute and its children. *)
#[warnings="-register-all"]
Inductive node :=
| Text (data : jstring)
| Element (tagName : jstring) (classList : list jstring)
    (childNodes : list node).

(** The children of [#skillTags], [None] once that element has left the
    document, and the value of the hidden [#skills] input, which lies
    outside [#skillTags]. *)
Record skill_editor := {
  skillTags : option (list node);
  skills : jstring
}.

Record resume_form := {
  resumeUpload : jstring;      (* value of the file input *)
  resumeFileName : jstring;    (* text of #resumeFileName *)
  fullName : jstring;
  email : jstring;
  phone : jstring
}.

Record button := {
  attached : bool;             (* still in the document *)
  disabled : bool;
  content : jstring
}.

Record load_more := {
  currentPage : Z;
  loadMoreJobs : button
}.

Inductive permission := Default | Granted | Denied.

Record notifier := {
  Notification_permission : permission;
  notificationBadge : jstring;
  notificationBadge_shown : bool;
  desktop : list jstring       (* bodies of the desktop notifications raised *)
}.

Record page := {
  notifications : list notification;   (* newest first *)
  alerts : list jstring;               (* blocking alert() dialogs, newest first *)
  form : resume_form;
  editor : skill_editor;
  pager : load_more;
  notify : notifier
}.

Definition set_notifications (v : list notification) (p : page) : page :=
  {| notifications := v; alerts := alerts p; form := form p;
     editor := editor p; pager := pager p; notify := notify p |}.

Definition set_alerts (v : list jstring) (p : page) : page :=
  {| notifications := notifications p; alerts := v; form := form p;
     editor := editor p; pager := pager p; notify := notify p |}.

Definition set_form (v : resume_form) (p : page) : page :=
  {| notifications := notifications p; alerts := alerts p; form := v;
     editor := editor p; pager := pager p; notify := notify p |}.

Definition set_editor (v : skill_editor) (p : page) : page :=
  {| notifications := notifications p; alerts := alerts p; form := form p;
     editor := v; pager := pager p; notify := notify p |}.

Definition set_pager (v : load_more) (p : page) : page :=
  {| notifications := notifications p; alerts := alerts p; form := form p;
     editor := editor p; pager := v; notify := notify p |}.

Definition set_notify (v : notifier) (p : page) : page :=
  {| notifications := notifications p; alerts := alerts p; form := form p;
     editor := editor p; pager := pager p; notify := v |}.

(** A string in a condition: the empty string is falsy. *)
Definition truthy (s : jstring) : bool :=
  match s with [] => false | _ :: _ => true end.

(** *** Notification banner *)

Definition showNotification (title message type : jstring) (p : page) : page :=
  set_notifications
    ({| title := title; message := message; type := type |}
       :: notifications p) p.

(** *** Email validation (blur) *)

Record email_input := {
  value : jstring;
  is_invalid : bool;            (* carries the class is-invalid *)
  invalid_feedback : jstring    (* text of the next .invalid-feedback *)
}.

(** [/^[^\s@]+@[^\s@]+\.[^\s@]+$/] without its anchors. *)
Definition emailRegex : regex :=
  Cat (Plus (Class true [Space; One 64]))
    (Cat (Lit 64)
       (Cat (Plus (Class true [Space; One 64]))
          (Cat (Lit 46)
             (Plus (Class true [Space; One 64]))))).

Definition email_blur (i : email_input) : email_input :=
  let email := value i in
  if truthy email && negb (test_anchored emailRegex email) then
    {| value := email; is_invalid := true;
       invalid_feedback := js "Please enter a valid email address." |}
  else
    {| value := email; is_invalid := false;
       invalid_feedback := invalid_feedback i |}.

(** *** Password strength (keyup) *)

Record badge := {
  badge_text : jstring;
  badge_class : jstring
}.

Definition password_strength (password : jstring) : nat :=
  let strength := 0 in
  let strength :=
    if 8 <=? List.length password then S strength else strength in
  let strength :=
    if test (Class false [Range 65 90]) password
    then S strength else strength in
  let strength :=
    if test (Class false [Range 48 57]) password
    then S strength else strength in
  let strength :=
    if test (Class true [Range 65 90; Range 97 122; Range 48 57]) password
    then S strength else strength in
  strength.

Definition strengthTexts : list jstring :=
  [js "Very Weak"; js "Weak"; js "Fair"; js "Good"; js "Strong"].

Definition strengthColors : list jstring :=
  [js "danger"; js "warning"; js "info"; js "primary"; js "success"].

(** The badge after the handler ran; [None] stands for an index outside the
    two arrays, where the source would read [undefined]. *)
Definition password_keyup (password : jstring) : option badge :=
  let strength := password_strength password in
  match nth_error strengthTexts strength,
        nth_error strengthColors strength with
  | Some strengthText, Some strengthColor =>
      Some {| badge_text := strengthText;
              badge_class := js "badge bg-" ++ strengthColor |}
  | _, _ => None
  end.

(** *** Skill tags *)

(** What the recomputation pushes for one tag:
    [$(this).text().trim().replace('×', '')]; the marker is code unit 215. *)
Definition tag_skill (text : jstring) : jstring :=
  replace [215%N] [] (trim text).

(** [.text()] of an element: the text of all its descendants, in order. *)
Fixpoint textContent (n : node) : jstring :=
  match n with
  | Text data => data
  | Element _ _ children => List.concat (map textContent children)
  end.

Fixpoint same_string (a b : jstring) : bool :=
  match a, b with
  | [], [] => true
  | x :: a', y :: b' => (x =? y)%N && same_string a' b'
  | _, _ => false
  end.

Definition has_class (cls : jstring) (n : node) : bool :=
  match n with
  | Element _ classes _ => existsb (same_string cls) classes
  | Text _ => false
  end.

(** The elements of class [cls] in the subtree of [n], in document order. *)
Fixpoint find_class (cls : jstring) (n : node) : list node :=
  match n with
  | Text _ => []
  | Element _ _ children =>
      (if has_class cls n then [n] else [])
        ++ flat_map (find_class cls) children
  end.

(** The texts of [$('#skillTags .skill-tag')], in document order. *)
Definition tag_texts (dom : option (list node)) : list jstring :=
  match dom with
  | Some children =>
      map textContent (flat_map (find_class (js "skill-tag")) children)
  | None => []
  end.

(** The recomputation of the hidden field, the same in both functions. *)
Definition read_skills (dom : option (list node)) : jstring :=
  join (js ",") (map tag_skill (tag_texts dom)).

Definition close_button : node :=
  Element (js "button") [js "btn-close"; js "btn-close-white"] [].

(** The span of the tag template around a text. *)
Definition tag_node (text : jstring) : node :=
  Element (js "span") [js "skill-tag"] [Text text; close_button].

(** The skill is put into the HTML of the tag unescaped, and jQuery has the
    browser parse that HTML. A skill without [<], [&], NUL and carriage
    return goes through the parser as text. *)
Definition plain_char (c : code_unit) : bool :=
  negb ((c =? 0) || (c =? 13) || (c =? 38) || (c =? 60))%N.

Definition plain_text (skill : jstring) : bool := forallb plain_char skill.

(** The nodes parsed from the tag template with [skill] in it. For plain
    text it is the span holding the skill, a space and the close button;
    what the browser builds from a skill with markup is the parameter
    [parse_markup]. *)
Definition render (parse_markup : jstring -> list node) (skill : jstring)
  : list node :=
  if plain_text skill then [tag_node (skill ++ js " ")]
  else parse_markup skill.

Definition addSkillTag (parse_markup : jstring -> list node)
  (skill : jstring) (e : skill_editor) : skill_editor :=
  let dom :=
    option_map (fun children => children ++ render parse_markup skill)
      (skillTags e) in
  {| skillTags := dom; skills := read_skills dom |}.

Fixpoint remove_at {A : Type} (i : nat) (l : list A) : list A :=
  match i, l with
  | _, [] => []
  | O, _ :: rest => rest
  | S i', x :: rest => x :: remove_at i' rest
  end.

Fixpoint change_at {A : Type} (i : nat) (f : A -> A) (l : list A) : list A :=
  match i, l with
  | _, [] => []
  | O, x :: rest => f x :: rest
  | S i', x :: rest => x :: change_at i' f rest
  end.

(** The node at a path of child positions, if there is one. *)
Fixpoint node_at (path : list nat) (children : list node) : option node :=
  match path with
  | [] => None
  | i :: rest =>
      match nth_error children i with
      | None => None
      | Some n =>
          match rest with
          | [] => Some n
          | _ :: _ =>
              match n with
              | Element _ _ inner => node_at rest inner
              | Text _ => None
              end
          end
      end
  end.

(** The children without the subtree at [path]. *)
Fixpoint delete_at (path : list nat) (children : list node) : list node :=
  match path with
  | [] => children
  | i :: rest =>
      match rest with
      | [] => remove_at i children
      | _ :: _ =>
          change_at i
            (fun n =>
               match n with
               | Element name classes inner =>
                   Element name classes (delete_at rest inner)
               | Text _ => n
               end) children
      end
  end.

(** [button] lies inside [#skillTags]: it is child [fst button] of the
    container, or is reached from that child along [snd button].
    [$(button).parent().remove()] takes the parent's subtree out of the
    document; the parent of a direct child is [#skillTags] itself. A button
    that is no longer in the document changes nothing in it. *)
Definition removeSkillTag (button : nat * list nat) (e : skill_editor)
  : skill_editor :=
  let dom :=
    match skillTags e with
    | Some children =>
        let (i, rest) := button in
        match node_at (i :: rest) children with
        | Some _ =>
            match rest with
            | [] => None
            | _ :: _ => Some (delete_at (i :: removelast rest) children)
            end
        | None => Some children
        end
    | None => None
    end in
  {| skillTags := dom; skills := read_skills dom |}.

(** *** Resume upload (change) and the parsing call *)

Record resume_data := {
  rd_success : bool;                       (* truthiness of data.success *)
  rd_name : option jstring;
  rd_email : option jstring;
  rd_phone : option jstring;
  rd_skills : option (list jstring)
}.

Definition parseResume (f : file) : request :=
  Post (js "/api/parse-resume") [(js "resume", Upload f)].

(** [if (data.x) $(field).val(data.x)] *)
Definition fill (v : option jstring) (old : jstring) : jstring :=
  match v with
  | Some s => if truthy s then s else old
  | None => old
  end.

Definition parseResume_callbacks (parse_markup : jstring -> list node)
  : callbacks resume_data page := {|
  success := Some (fun data p =>
    if rd_success data then
      let f := form p in
      let p := set_form
        {| resumeUpload := resumeUpload f;
           resumeFileName := resumeFileName f;
           fullName := fill (rd_name data) (fullName f);
           email := fill (rd_email data) (email f);
           phone := fill (rd_phone data) (phone f) |} p in
      let p :=
        match rd_skills data with
        | Some l =>
            set_editor
              (fold_left (fun e skill => addSkillTag parse_markup skill e) l
                 (editor p)) p
        | None => p
        end in
      showNotification (js "Success!") (js "Resume parsed successfully.")
        (js "success") p
    else p);
  error := Some (fun p =>
    showNotification (js "Error!") (js "Failed to parse resume.")
      (js "error") p)
|}.

(** The size in MB is the two-decimal string of [toFixed(2)], and
    [fileSize > 5] compares the number that string denotes: with [fileSize]
    counted in hundredths, [500 < fileSize]. The second component is the
    parsing call, when one is made. *)
Definition resumeUpload_change (files : list file) (p : page)
  : page * option request :=
  match files with
  | f :: _ =>
      let fileName := file_name f in
      let fileSize := toFixed2 (file_size f) (1024 * 1024) in
      if (500 <? fileSize)%N then
        let p := set_alerts
          (js "File size should be less than 5MB" :: alerts p) p in
        let fm := form p in
        (set_form
           {| resumeUpload := [];
              resumeFileName := resumeFileName fm;
              fullName := fullName fm; email := email fm;
              phone := phone fm |} p,
         None)
      else
        let fm := form p in
        (set_form
           {| resumeUpload := resumeUpload fm;
              resumeFileName :=
                fileName ++ js " (" ++ fixed2_string fileSize ++ js " MB)";
              fullName := fullName fm; email := email fm;
              phone := phone fm |} p,
         Some (parseResume f))
  | [] => (p, None)
  end.

(** *** Generic AJAX form (submit) *)

Record form_response := {
  fr_success : bool;            (* truthiness of response.success *)
  fr_message : jstring
}.

Definition ajaxForm_submit (action : jstring)
  (formData : list (jstring * part)) : request :=
  Post action formData.

Definition ajaxForm_callbacks : callbacks form_response page := {|
  success := Some (fun response p =>
    if fr_success response then
      showNotification (js "Success!") (fr_message response) (js "success") p
    else
      showNotification (js "Error!") (fr_message response) (js "error") p);
  error := Some (fun p =>
    showNotification (js "Error!")
      (js "Something went wrong. Please try again.") (js "error") p)
|}.

(** *** Job search autocomplete (keyup) *)

Definition jobSearch_keyup (query : jstring) : option request :=
  if 2 <=? List.length query
  then Some (Get (js "/api/jobs/autocomplete") [(js "q", query)])
  else None.

Definition jobSearch_callbacks (A : Type) : callbacks A page := {|
  success := Some (fun _ p => p);
  error := None
|}.

(** *** Load more jobs (click) *)

(** [jobs] is [None] when the response carries no [jobs] array: reading its
    length throws and the callback changes nothing. *)
Record jobs_response := {
  jobs : option (list jstring)
}.

(** The markup of the loading indicator; 34 is the double quote. *)
Definition loading_markup : jstring :=
  js "<span class=" ++ [34%N] ++ js "spinner-border spinner-border-sm"
    ++ [34%N] ++ js "></span> Loading...".

Definition initial_pager (b : button) : load_more :=
  {| currentPage := 1; loadMoreJobs := b |}.

Definition loadMore_click (p : page) : page * request :=
  let currentPage := (currentPage (pager p) + 1)%Z in
  let b := loadMoreJobs (pager p) in
  (set_pager
     {| currentPage := currentPage;
        loadMoreJobs := {| attached := attached b; disabled := true;
                           content := loading_markup |} |} p,
   Get (js "/api/jobs") [(js "page", Number_toString (Int currentPage))]).

Definition loadMore_callbacks : callbacks jobs_response page := {|
  success := Some (fun data p =>
    let b := loadMoreJobs (pager p) in
    match jobs data with
    | Some l =>
        if 0 <? List.length l then
          set_pager
            {| currentPage := currentPage (pager p);
               loadMoreJobs := {| attached := attached b; disabled := false;
                                  content := js "Load More" |} |} p
        else
          set_pager
            {| currentPage := currentPage (pager p);
               loadMoreJobs := {| attached := false; disabled := disabled b;
                                  content := content b |} |} p
    | None => p
    end);
  error := None
|}.

(** *** Notification polling *)

Definition checkNotifications : request :=
  Get (js "/api/notifications/unread") [].

Definition checkNotifications_callbacks : callbacks Z page := {|
  success := Some (fun count p =>
    if (0 <? count)%Z then
      let n := notify p in
      let raised :=
        match Notification_permission n with
        | Granted =>
            (js "You have " ++ Number_toString (Int count)
               ++ js " new notifications") :: desktop n
        | _ => desktop n
        end in
      set_notify
        {| Notification_permission := Notification_permission n;
           notificationBadge := Number_toString (Int count);
           notificationBadge_shown := true;
           desktop := raised |} p
    else p);
  error := None
|}.

(** *** Relative time *)

Definition MS_PER_DAY : Z := 1000 * 60 * 60 * 24.

(** [Math.ceil(a / b)] for an integer [a] and [b > 0]. *)
Definition ceil_div (a b : Z) : Z := (- ((- a) / b))%Z.

(** A [Date] holds a time value in milliseconds, or is an Invalid Date
    ([None]), whose arithmetic gives NaN. Time values are integers of
    magnitude at most 8.64e15, so the difference, the quotient and their
    roundings below are exact. *)
Definition diffDays (now : Z) (date : option Z) : number :=
  match date with
  | Some d =>
      let diffTime := Z.abs (now - d) in
      Int (ceil_div diffTime MS_PER_DAY)
  | None => NaN
  end.

(** [x === k], [x < k] and [Math.floor(x / k)]; a comparison with NaN is
    false. *)
Definition num_eqb (x : number) (k : Z) : bool :=
  match x with Int z => (z =? k)%Z | NaN => false end.

Definition num_ltb (x : number) (k : Z) : bool :=
  match x with Int z => (z <? k)%Z | NaN => false end.

Definition floor_div (x : number) (k : Z) : number :=
  match x with Int z => Int (z / k) | NaN => NaN end.

Definition daysAgo (now : Z) (date : option Z) : jstring :=
  let diffDays := diffDays now date in
  if num_eqb diffDays 0 then js "Today"
  else if num_eqb diffDays 1 then js "Yesterday"
  else if num_ltb diffDays 7 then
    Number_toString diffDays ++ js " days ago"
  else if num_ltb diffDays 30 then
    Number_toString (floor_div diffDays 7) ++ js " weeks ago"
  else if num_ltb diffDays 365 then
    Number_toString (floor_div diffDays 30) ++ js " months ago"
  else Number_toString (floor_div diffDays 365) ++ js " years ago".

End Portal.

(** ** Event traces

    Sequences of handler runs, used to state properties over every order of
    events. *)

Module Traces.
Import JS Portal.

Inductive skill_op :=
| Add (skill : jstring)
| Remove (button : nat * list nat).

Definition apply_op (parse_markup : jstring -> list node) (e : skill_editor)
  (op : skill_op) : skill_editor :=
  match op with
  | Add skill => addSkillTag parse_markup skill e
  | Remove button => removeSkillTag button e
  end.

Definition apply_ops (parse_markup : jstring -> list node)
  (ops : list skill_op) (e : skill_editor) : skill_editor :=
  fold_left (apply_op parse_markup) ops e.

(** The close button of the tag at position [i] of a row of tags: the
    second child of the span. *)
Definition close_of (i : nat) : nat * list nat := (i, [1]).

(** An operation of ordinary use: adding a plain-text skill, or clicking
    the close button of a tag. *)
Definition plain_op (op : skill_op) : bool :=
  match op with
  | Add skill => plain_text skill
  | Remove (_, [1]) => true
  | Remove _ => false
  end.

(** The load-more control sees clicks and the settling of its requests, in
    any order. *)
Inductive pager_event :=
| Click
| Settled (r : ajax_result jobs_response).

Definition pager_step (st : page * list request) (ev : pager_event)
  : page * list request :=
  let (p, sent) := st in
  match ev with
  | Click => let (p', rq) := loadMore_click p in (p', sent ++ [rq])
  | Settled r => (settle loadMore_callbacks r p, sent)
  end.

(** The page after the events and the requests issued, oldest first. *)
Definition run_pager (evs : list pager_event) (p : page)
  : page * list request :=
  fold_left pager_step evs (p, []).

Definition page_request (n : Z) : request :=
  Get (js "/api/jobs") [(js "page", Number_toString (Int n))].

(** The number of clicks in a trace. *)
Definition clicks (evs : list pager_event) : nat :=
  List.length
    (filter (fun ev => match ev with Click => true | Settled _ => false end)
       evs).

Definition the_button (p : page) : button := loadMoreJobs (pager p).

(** The skills an incrementally kept list would hold after the same
    operations. *)
Definition track (l : list jstring) (op : skill_op) : list jstring :=
  match op with
  | Add skill => l ++ [skill]
  | Remove (i, _) => remove_at i l
  end.

Definition blank_button : button :=
  {| attached := true; disabled := false; content := js "Load More" |}.

(** A freshly loaded page: nothing shown, nothing typed, first page of jobs. *)
Definition blank_page : page :=
  {| notifications := []; alerts := [];
     form := {| resumeUpload := []; resumeFileName := []; fullName := [];
                email := []; phone := [] |};
     editor := {| skillTags := Some []; skills := [] |};
     pager := initial_pager blank_button;
     notify := {| Notification_permission := Granted;
                  notificationBadge := []; notificationBadge_shown := false;
                  desktop := [] |} |}.

(** The page once the user has picked [cv.pdf] in the file input. *)
Definition chosen_page : page :=
  set_form
    {| resumeUpload := js "C:\fakepath\cv.pdf"; resumeFileName := [];
       fullName := []; email := []; phone := [] |} blank_page.

End Traces.

(** ** The properties in the words of the specification *)

Module Spec.
Import JS Regex Portal.

(** One character of [[^\s@]]. *)
Definition atom (c : code_unit) : bool :=
  negb (is_space c) && negb (c =? 64)%N.

(** A non-empty run of such characters. *)
Definition word (s : jstring) : Prop :=
  s <> [] /\ forallb atom s = true.

(** [word @ word . word] *)
Definition email_shaped (s : jstring) : Prop :=
  exists a b c, s = a ++ [64%N] ++ b ++ [46%N] ++ c
                /\ word a /\ word b /\ word c.

(** The four password criteria. *)
Definition is_upper (c : code_unit) : bool := ((65 <=? c) && (c <=? 90))%N.
Definition is_lower (c : code_unit) : bool := ((97 <=? c) && (c <=? 122))%N.
Definition is_digit (c : code_unit) : bool := ((48 <=? c) && (c <=? 57))%N.

Definition long_enough (pw : jstring) : bool := 8 <=? List.length pw.
Definition has_upper (pw : jstring) : bool := existsb is_upper pw.
Definition has_digit (pw : jstring) : bool := existsb is_digit pw.
Definition has_symbol (pw : jstring) : bool :=
  existsb (fun c => negb (is_upper c || is_lower c || is_digit c)) pw.

Definition score (b : bool) : nat := if b then 1 else 0.

(** A failed remote call puts an error message on the banner. *)
Definition reports_failure (A : Type) (cb : callbacks A page) : Prop :=
  forall p, exists n,
    notifications (settle cb Failed p) = n :: notifications p
    /\ title n = js "Error!" /\ type n = js "error".

(** A failed remote call leaves the page as it was. *)
Definition ignores_failure (A : Type) (cb : callbacks A page) : Prop :=
  forall p, settle cb Failed p = p.

(** The claim that every one of the five remote calls reports a transport
    failure on the banner. *)
Definition every_call_reports_failure : Prop :=
  reports_failure ajaxForm_callbacks
  /\ (forall parse_markup,
        reports_failure (parseResume_callbacks parse_markup))
  /\ reports_failure (jobSearch_callbacks jstring)
  /\ reports_failure loadMore_callbacks
  /\ reports_failure checkNotifications_callbacks.

(** One megabyte, binary. *)
Definition MB : N := 1024 * 1024.

End Spec.

(** ** Further handlers of the script *)

Module Widgets.
Import JS Portal.

(** *** Skill input (keypress)

    [which] is the key code (13 Enter, 44 comma) and [input] the value of
    [#skillsInput]. The result tells whether the default action was
    prevented, and gives the value of the input and the editor afterwards. *)
Definition skillsInput_keypress (parse_markup : jstring -> list node)
  (which : Z) (input : jstring) (e : skill_editor)
  : bool * jstring * skill_editor :=
  if ((which =? 13) || (which =? 44))%Z then
    let skill := trim input in
    if truthy skill then (true, [], addSkillTag parse_markup skill e)
    else (true, input, e)
  else (false, input, e).

(** *** Desktop notifications

    At document ready the 30-second polling is started when the Notification
    interface exists and permission is granted already. *)
Definition starts_polling (has_Notification : bool) (perm : permission)
  : bool :=
  has_Notification
  && match perm with Granted => true | _ => false end.

(** [requestNotificationPermission], run at window load: whether the browser
    is asked, the permission after the user's [answer], and the console
    output. *)
Definition requestNotificationPermission (has_Notification : bool)
  (perm answer : permission) : bool * permission * list jstring :=
  if has_Notification
     && match perm with Default => true | _ => false end
  then
    (true, answer,
     match answer with
     | Granted => [js "Notification permission granted"]
     | _ => []
     end)
  else (false, perm, []).

(** *** Scroll reveal

    Positions are whatever numbers the browser reports; their sum and their
    comparisons are kept abstract. *)
Section Reveal.
Variable num : Type.
Variable add : num -> num -> num.
Variable gt lt : num -> num -> bool.

(** One [.animate-on-scroll] element: [offset().top], [outerHeight()] and
    whether it carries the class [animated]. *)
Record element := {
  offset_top : num;
  outerHeight : num;
  animated : bool
}.

(** The window: [scrollTop()] and [height()]. *)
Record viewport := {
  scrollTop : num;
  height : num
}.

Definition in_view (w : viewport) (el : element) : bool :=
  let elementTop := offset_top el in
  let elementBottom := add elementTop (outerHeight el) in
  let viewportTop := scrollTop w in
  let viewportBottom := add viewportTop (height w) in
  gt elementBottom viewportTop && lt elementTop viewportBottom.

Definition reveal (w : viewport) (el : element) : element :=
  if in_view w el
  then {| offset_top := offset_top el; outerHeight := outerHeight el;
          animated := true |}
  else el.

(** The scroll handler, over the elements in document order. *)
Definition on_scroll (w : viewport) (els : list element) : list element :=
  map (reveal w) els.

(** An element that gets the class when it is in view at one of the
    positions [ws]; the handler is compared with it below. *)
Definition revealed (ws : list viewport) (el : element) : element :=
  {| offset_top := offset_top el; outerHeight := outerHeight el;
     animated := animated el || existsb (fun w => in_view w el) ws |}.

(** The handler run at each of a sequence of scroll positions. *)
Definition scroll_through (ws : list viewport) (els : list element)
  : list element :=
  fold_left (fun els w => on_scroll w els) ws els.

End Reveal.

End Widgets.

(** ** Sequences of further events *)

Module Runs.
Import JS Portal Widgets.

(** The user types [input] into the skill field and presses Enter. *)
Definition enter_skill (parse_markup : jstring -> list node)
  (e : skill_editor) (input : jstring) : skill_editor :=
  snd (skillsInput_keypress parse_markup 13 input e).

Definition enter_skills (parse_markup : jstring -> list node)
  (inputs : list jstring) (e : skill_editor) : skill_editor :=
  fold_left (enter_skill parse_markup) inputs e.

Definition nonblank (input : jstring) : bool := truthy (trim input).

(** A skill as the hidden field can give it back: no white space around it
    and no marker in it. *)
Definition clean (skill : jstring) : Prop :=
  trim skill = skill /\ ~ In 215%N skill.

(** The unread-count poll settling again and again. *)
Definition run_polls (rs : list (ajax_result Z)) (p : page) : page :=
  fold_left (fun p r => settle checkNotifications_callbacks r p) rs p.

(** A poll that reports at least one unread notification. *)
Definition reports_unread (r : ajax_result Z) : bool :=
  match r with Done count => (0 <? count)%Z | Failed => false end.

(** A settling of the jobs request that no callback handles: a failed call,
    or a response without a [jobs] array. *)
Definition unhandled (ev : Traces.pager_event) : bool :=
  match ev with
  | Traces.Settled Failed => true
  | Traces.Settled (Done r) =>
      match jobs r with None => true | Some _ => false end
  | Traces.Click => false
  end.

(** The parsing call settling twice with the same response. *)
Definition parsed_twice (parse_markup : jstring -> list node)
  (data : resume_data) (p : page) : page :=
  settle (parseResume_callbacks parse_markup) (Done data)
    (settle (parseResume_callbacks parse_markup) (Done data) p).

End Runs.

Import JS Regex Portal Traces Spec.
Import Widgets Runs.

(** ** Lists *)

Section ListFacts.
Variable A : Type.
Variables f g : A -> bool.
Hypothesis fg : forall x, f x = g x.

Lemma forallb_same (l : list A) : forallb f l = forallb g l.
Proof. induction l as [|x l IH]; simpl; [| rewrite fg, IH]; reflexivity. Qed.

Lemma existsb_same (l : list A) : existsb f l = existsb g l.
Proof. induction l as [|x l IH]; simpl; [| rewrite fg, IH]; reflexivity. Qed.

End ListFacts.

(** ** Correctness of the matcher *)

Section RegexFacts.

Lemma nullable_matches (r : regex) : nullable r = true <-> matches r [].
Proof.
  induction r; simpl.
  - split; [discriminate | inversion 1].
  - split; [constructor | reflexivity].
  - split; [discriminate | inversion 1].
  - rewrite andb_true_iff, IHr1, IHr2. split.
    + intros [H1 H2]. exact (m_cat H1 H2).
    + inversion 1; subst.
      match goal with H : _ ++ _ = [] |- _ =>
        apply app_eq_nil in H; destruct H; subst end.
      split; assumption.
  - rewrite orb_true_iff, IHr1, IHr2. split.
    + intros [H | H]; [apply m_alt_l | apply m_alt_r]; assumption.
    + inversion 1; subst; [left | right]; assumption.
  - split; [constructor | reflexivity].
Qed.

Lemma star_cons (r : regex) (c : code_unit) (s : jstring) :
  matches (Star r) (c :: s) ->
  exists s1 s2, s = s1 ++ s2 /\ matches r (c :: s1) /\ matches (Star r) s2.
Proof.
  intros H. remember (Star r) as q eqn:Eq. remember (c :: s) as w eqn:Ew.
  revert s Ew. induction H; intros s' Ew; try discriminate.
  injection Eq as ->. destruct s1 as [|d s1]; simpl in Ew.
  - apply IHmatches2; [reflexivity | assumption].
  - injection Ew as E1 E2. subst. exists s1, s2. repeat split; assumption.
Qed.

Lemma deriv_matches (r : regex) (c : code_unit) (s : jstring) :
  matches (deriv c r) s <-> matches r (c :: s).
Proof.
  revert s. induction r; intros s; simpl.
  - split; inversion 1.
  - split; inversion 1.
  - destruct (class_has negated items c) eqn:E; split; intros H.
    + inversion H; subst. constructor. assumption.
    + inversion H; subst. constructor.
    + inversion H.
    + inversion H; subst. congruence.
  - split; intros H.
    + inversion H; subst.
      * match goal with H' : matches (Cat _ _) _ |- _ =>
          inversion H'; subst end.
        match goal with H' : matches (deriv c r1) _ |- _ =>
          apply IHr1 in H' end.
        change (c :: s1 ++ s2) with ((c :: s1) ++ s2).
        constructor; assumption.
      * destruct (nullable r1) eqn:En.
        -- apply nullable_matches in En.
           match goal with H' : matches (deriv c r2) _ |- _ =>
             apply IHr2 in H' end.
           change (c :: s) with ([] ++ c :: s). constructor; assumption.
        -- match goal with H' : matches Void _ |- _ => inversion H' end.
    + inversion H; subst. destruct s1 as [|d s1]; simpl in *.
      * subst. apply m_alt_r.
        match goal with H' : matches r1 [] |- _ =>
          apply nullable_matches in H'; rewrite H' end.
        apply IHr2. assumption.
      * match goal with H' : _ :: _ = _ :: _ |- _ =>
          injection H' as E1 E2; subst end.
        apply m_alt_l. constructor; [apply IHr1 |]; assumption.
  - split; intros H; inversion H; subst.
    + apply m_alt_l, IHr1. assumption.
    + apply m_alt_r, IHr2. assumption.
    + apply m_alt_l, IHr1. assumption.
    + apply m_alt_r, IHr2. assumption.
  - split; intros H.
    + inversion H; subst.
      change (c :: s1 ++ s2) with ((c :: s1) ++ s2).
      constructor; [apply IHr |]; assumption.
    + apply star_cons in H. destruct H as (s1 & s2 & -> & H1 & H2).
      constructor; [apply IHr |]; assumption.
Qed.

Lemma accepts_matches (r : regex) (s : jstring) :
  accepts r s = true <-> matches r s.
Proof.
  revert r. induction s as [|c s IH]; intros r; simpl.
  - apply nullable_matches.
  - rewrite IH. apply deriv_matches.
Qed.

Lemma star_class (negated : bool) (items : list class_item) (s : jstring) :
  matches (Star (Class negated items)) s <->
  forallb (class_has negated items) s = true.
Proof.
  split.
  - intros H. remember (Star (Class negated items)) as q eqn:Eq.
    induction H; try discriminate; [reflexivity |].
    injection Eq as ->. inversion H; subst. simpl.
    rewrite IHmatches2 by reflexivity.
    match goal with H' : class_has _ _ _ = true |- _ => rewrite H' end.
    reflexivity.
  - induction s as [|c s IH]; simpl; intros H; [constructor |].
    apply andb_true_iff in H. destruct H as [Hc Hs].
    change (c :: s) with ([c] ++ s).
    constructor; [constructor; assumption | apply IH; assumption].
Qed.

Lemma plus_class (negated : bool) (items : list class_item) (s : jstring) :
  matches (Plus (Class negated items)) s <->
  s <> [] /\ forallb (class_has negated items) s = true.
Proof.
  unfold Plus. split.
  - intros H. inversion H; subst.
    match goal with H' : matches (Class _ _) _ |- _ =>
      inversion H'; subst end.
    match goal with H' : matches (Star _) _ |- _ =>
      apply star_class in H' end.
    simpl. split; [discriminate |].
    apply andb_true_iff. split; assumption.
  - intros [Hne H]. destruct s as [|c s]; [congruence |].
    simpl in H. apply andb_true_iff in H. destruct H as [Hc Hs].
    change (c :: s) with ([c] ++ s).
    constructor; [constructor; assumption | apply star_class; assumption].
Qed.

Lemma lit_matches (c : code_unit) (s : jstring) :
  matches (Lit c) s <-> s = [c].
Proof.
  unfold Lit. split.
  - inversion 1; subst.
    match goal with H' : class_has _ _ _ = true |- _ =>
      unfold class_has in H'; simpl in H';
      rewrite orb_false_r in H'; apply N.eqb_eq in H'; subst end.
    reflexivity.
  - intros ->. constructor. unfold class_has. simpl.
    rewrite N.eqb_refl. reflexivity.
Qed.

Lemma star_any (s : jstring) : matches (Star Any) s.
Proof. apply star_class. induction s; simpl; auto. Qed.

(** An unanchored pattern is searched for: [test] holds exactly when some
    substring matches. *)
Lemma test_substring (r : regex) (s : jstring) :
  test r s = true <->
  exists pre mid post, s = pre ++ mid ++ post /\ matches r mid.
Proof.
  unfold test. rewrite accepts_matches. split.
  - intros H. inversion H; subst.
    match goal with H' : matches (Cat r _) _ |- _ =>
      inversion H'; subst end.
    eauto.
  - intros (pre & mid & post & -> & H).
    constructor; [apply star_any |].
    constructor; [assumption | apply star_any].
Qed.

(** A one-class pattern asks whether some code unit is in the class. *)
Lemma test_class (negated : bool) (items : list class_item) (s : jstring) :
  test (Class negated items) s = existsb (class_has negated items) s.
Proof.
  apply eq_true_iff_eq. rewrite test_substring, existsb_exists. split.
  - intros (pre & mid & post & -> & H). inversion H; subst.
    exists c. split; [| assumption].
    apply in_or_app. right. left. reflexivity.
  - intros (c & Hin & Hc). apply in_split in Hin.
    destruct Hin as (pre & post & ->).
    exists pre, [c], post. split; [reflexivity | constructor; assumption].
Qed.

End RegexFacts.

(** ** Email validation *)

Section Email.

Lemma atom_class (c : code_unit) :
  class_has true [Space; One 64] c = atom c.
Proof.
  unfold class_has, atom. simpl. rewrite orb_false_r.
  destruct (is_space c), (c =? 64)%N; reflexivity.
Qed.

Lemma plus_atoms (s : jstring) :
  matches (Plus (Class true [Space; One 64])) s <-> word s.
Proof.
  rewrite plus_class. unfold word.
  rewrite (forallb_same _ _ atom_class). reflexivity.
Qed.

(** The strings of the pattern are the ones of the shape
    [word @ word . word]. *)
Lemma email_pattern_shape (s : jstring) :
  matches emailRegex s <-> email_shaped s.
Proof.
  unfold emailRegex, email_shaped. split.
  - intros H.
    inversion H as [| | ? ? a r1 Ha H1 | | | | ]; subst.
    inversion H1 as [| | ? ? at_ r2 Hat H2 | | | | ]; subst.
    inversion H2 as [| | ? ? b r3 Hb H3 | | | | ]; subst.
    inversion H3 as [| | ? ? dot c Hdot Hc | | | | ]; subst.
    apply lit_matches in Hat, Hdot. subst.
    apply plus_atoms in Ha, Hb, Hc.
    exists a, b, c. split; [reflexivity | auto].
  - intros (a & b & c & -> & Ha & Hb & Hc).
    apply plus_atoms in Ha, Hb, Hc.
    repeat (constructor; try assumption); try (apply lit_matches; reflexivity).
Qed.

(** C7. On blur of an email field: a value matching the pattern
    [^[^\s@]+@[^\s@]+\.[^\s@]+$] leaves the field without the invalid mark; a
    non-empty value that does not match marks it invalid and sets the fixed
    message [Please enter a valid email address.]; the empty value leaves it
    without the invalid mark, and no message is written. *)
Theorem email_blur_validates (i : email_input) :
  (matches emailRegex (value i) ->
     is_invalid (email_blur i) = false
     /\ invalid_feedback (email_blur i) = invalid_feedback i)
  /\ (value i <> [] -> ~ matches emailRegex (value i) ->
     is_invalid (email_blur i) = true
     /\ invalid_feedback (email_blur i)
        = js "Please enter a valid email address.")
  /\ (value i = [] ->
     is_invalid (email_blur i) = false
     /\ invalid_feedback (email_blur i) = invalid_feedback i).
Proof.
  unfold email_blur, test_anchored.
  destruct (accepts emailRegex (value i)) eqn:E.
  - rewrite andb_false_r. simpl. apply accepts_matches in E.
    repeat split; try reflexivity; contradiction.
  - assert (Hn : ~ matches emailRegex (value i)).
    { intros H. apply accepts_matches in H. congruence. }
    rewrite andb_true_r. destruct (value i) as [|c s]; simpl.
    + repeat split; try reflexivity; try contradiction; congruence.
    + repeat split; try reflexivity; try contradiction; discriminate.
Qed.

Lemma email_blur_validates_witness :
  is_invalid
    (email_blur {| value := js "ann@example.org"; is_invalid := true;
                   invalid_feedback := [] |}) = false
  /\ is_invalid
       (email_blur {| value := js "ann.example.org"; is_invalid := false;
                      invalid_feedback := [] |}) = true
  /\ is_invalid
       (email_blur {| value := []; is_invalid := true;
                      invalid_feedback := [] |}) = false.
Proof.
  split; [| split].
  - destruct (email_blur_validates
                {| value := js "ann@example.org"; is_invalid := true;
                   invalid_feedback := [] |}) as (H & _ & _).
    apply H. apply accepts_matches. reflexivity.
  - destruct (email_blur_validates
                {| value := js "ann.example.org"; is_invalid := false;
                   invalid_feedback := [] |}) as (_ & H & _).
    apply H.
    + discriminate.
    + intros M. apply accepts_matches in M. discriminate.
  - destruct (email_blur_validates
                {| value := []; is_invalid := true;
                   invalid_feedback := [] |}) as (_ & _ & H).
    apply H. reflexivity.
Defined.

End Email.

(** ** Password strength *)

Section Password.

Lemma upper_class (c : code_unit) :
  class_has false [Range 65 90] c = is_upper c.
Proof. unfold class_has, is_upper. simpl. apply orb_false_r. Qed.

Lemma digit_class (c : code_unit) :
  class_has false [Range 48 57] c = is_digit c.
Proof. unfold class_has, is_digit. simpl. apply orb_false_r. Qed.

Lemma symbol_class (c : code_unit) :
  class_has true [Range 65 90; Range 97 122; Range 48 57] c
  = negb (is_upper c || is_lower c || is_digit c).
Proof.
  unfold class_has, is_upper, is_lower, is_digit. simpl.
  rewrite orb_false_r, orb_assoc. reflexivity.
Qed.

(** The score is the number of criteria met. *)
Lemma password_strength_sum (pw : jstring) :
  password_strength pw
  = score (long_enough pw) + score (has_upper pw) + score (has_digit pw)
    + score (has_symbol pw).
Proof.
  unfold password_strength, long_enough, has_upper, has_digit, has_symbol.
  rewrite !test_class.
  rewrite (existsb_same _ _ upper_class), (existsb_same _ _ digit_class),
    (existsb_same _ _ symbol_class).
  destruct (8 <=? List.length pw), (existsb is_upper pw),
    (existsb is_digit pw),
    (existsb (fun c => negb (is_upper c || is_lower c || is_digit c)) pw);
    reflexivity.
Qed.

Lemma score_le (a b : bool) : (a = true -> b = true) -> score a <= score b.
Proof. destruct a, b; simpl; intros H; lia. Qed.

(** C6. For every password the keyup handler computes a score from 0 to 4,
    the sum of four independent checks (length at least 8, an uppercase
    letter, a digit, a character that is no letter or digit), and shows the
    label [['Very Weak','Weak','Fair','Good','Strong'][score]] with the colour
    [['danger','warning','info','primary','success'][score]]. The score is
    monotone in the set of criteria met, and [a], [aaaaaaaa], [Aaaaaaaa],
    [Aaaaaaa1], [Aaaaaaa1!] score 0, 1, 2, 3, 4. *)
Theorem password_strength_score (pw : jstring) :
  password_strength pw
    = score (long_enough pw) + score (has_upper pw) + score (has_digit pw)
      + score (has_symbol pw)
  /\ password_strength pw <= 4
  /\ password_keyup pw
     = Some {| badge_text := nth (password_strength pw) strengthTexts [];
               badge_class :=
                 js "badge bg-"
                   ++ nth (password_strength pw) strengthColors [] |}
  /\ (forall q,
        (long_enough pw = true -> long_enough q = true) ->
        (has_upper pw = true -> has_upper q = true) ->
        (has_digit pw = true -> has_digit q = true) ->
        (has_symbol pw = true -> has_symbol q = true) ->
        password_strength pw <= password_strength q)
  /\ (password_strength (js "a") = 0
      /\ password_keyup (js "a")
         = Some {| badge_text := js "Very Weak";
                   badge_class := js "badge bg-danger" |})
  /\ (password_strength (js "aaaaaaaa") = 1
      /\ password_keyup (js "aaaaaaaa")
         = Some {| badge_text := js "Weak";
                   badge_class := js "badge bg-warning" |})
  /\ (password_strength (js "Aaaaaaaa") = 2
      /\ password_keyup (js "Aaaaaaaa")
         = Some {| badge_text := js "Fair";
                   badge_class := js "badge bg-info" |})
  /\ (password_strength (js "Aaaaaaa1") = 3
      /\ password_keyup (js "Aaaaaaa1")
         = Some {| badge_text := js "Good";
                   badge_class := js "badge bg-primary" |})
  /\ (password_strength (js "Aaaaaaa1!") = 4
      /\ password_keyup (js "Aaaaaaa1!")
         = Some {| badge_text := js "Strong";
                   badge_class := js "badge bg-success" |}).
Proof.
  assert (Hle : password_strength pw <= 4).
  { rewrite password_strength_sum.
    destruct (long_enough pw), (has_upper pw), (has_digit pw),
      (has_symbol pw); simpl; lia. }
  split; [apply password_strength_sum |].
  split; [exact Hle |].
  split.
  { unfold password_keyup.
    destruct (password_strength pw) as [|[|[|[|[|n]]]]];
      try reflexivity; lia. }
  split.
  { intros q Hl Hu Hd Hs. rewrite !password_strength_sum.
    apply score_le in Hl, Hu, Hd, Hs. lia. }
  repeat split; reflexivity.
Qed.

Lemma password_strength_score_witness :
  password_strength (js "aaaaaaaa") <= password_strength (js "Aaaaaaa1").
Proof.
  destruct (password_strength_score (js "aaaaaaaa"))
    as (_ & _ & _ & Hmono & _).
  apply Hmono; try reflexivity; discriminate.
Defined.

End Password.

(** ** Relative time *)

Section RelativeTime.
Local Open Scope Z_scope.

(** [ceil_div] by the length of a day is the ceiling of the quotient. *)
Lemma ceil_div_day (a : Z) :
  ((ceil_div a MS_PER_DAY - 1) * MS_PER_DAY < a
   <= ceil_div a MS_PER_DAY * MS_PER_DAY)%Z.
Proof.
  unfold ceil_div, MS_PER_DAY.
  change (1000 * 60 * 60 * 24)%Z with 86400000%Z.
  pose proof (Z.div_mod (- a) 86400000 ltac:(lia)) as E.
  pose proof (Z.mod_pos_bound (- a) 86400000 ltac:(lia)) as B.
  lia.
Qed.

Lemma ceil_div_days (k : Z) : ceil_div (k * MS_PER_DAY) MS_PER_DAY = k.
Proof.
  unfold ceil_div. rewrite <- Z.mul_opp_l, Z.div_mul; [lia |].
  unfold MS_PER_DAY. lia.
Qed.

(** A date exactly [k] days before [now]. *)
Lemma diffDays_exact (now k : Z) :
  (0 <= k)%Z -> diffDays now (Some (now - k * MS_PER_DAY)) = Int k.
Proof.
  intros Hk. unfold diffDays.
  replace (now - (now - k * MS_PER_DAY))%Z with (k * MS_PER_DAY)%Z by lia.
  rewrite Z.abs_eq by (unfold MS_PER_DAY; lia).
  rewrite ceil_div_days. reflexivity.
Qed.

(** C4. [daysAgo] takes the number of days as the ceiling of the elapsed
    time in days and returns [Today] for 0, [Yesterday] for 1, [<n> days ago]
    for 2 to 6, [<n> weeks ago] with n = floor(days/7) for 7 to 29,
    [<n> months ago] with n = floor(days/30) for 30 to 364 and
    [<n> years ago] with n = floor(days/365) from 365 on; 0, 1, 5, 10, 40 and
    400 days give [Today], [Yesterday], [5 days ago], [1 weeks ago],
    [1 months ago] and [1 years ago]. *)
Theorem daysAgo_labels (now date : Z) :
  (exists d : Z,
      diffDays now (Some date) = Int d
      /\ ((d - 1) * MS_PER_DAY < Z.abs (now - date) <= d * MS_PER_DAY)%Z
      /\ (0 <= d)%Z
      /\ (d = 0%Z -> daysAgo now (Some date) = js "Today")
      /\ (d = 1%Z -> daysAgo now (Some date) = js "Yesterday")
      /\ ((2 <= d <= 6)%Z ->
          daysAgo now (Some date) = Number_toString (Int d) ++ js " days ago")
      /\ ((7 <= d <= 29)%Z ->
          daysAgo now (Some date)
          = Number_toString (Int (d / 7)) ++ js " weeks ago")
      /\ ((30 <= d <= 364)%Z ->
          daysAgo now (Some date)
          = Number_toString (Int (d / 30)) ++ js " months ago")
      /\ ((365 <= d)%Z ->
          daysAgo now (Some date)
          = Number_toString (Int (d / 365)) ++ js " years ago"))
  /\ daysAgo now (Some (now - 0 * MS_PER_DAY)) = js "Today"
  /\ daysAgo now (Some (now - 1 * MS_PER_DAY)) = js "Yesterday"
  /\ daysAgo now (Some (now - 5 * MS_PER_DAY)) = js "5 days ago"
  /\ daysAgo now (Some (now - 10 * MS_PER_DAY)) = js "1 weeks ago"
  /\ daysAgo now (Some (now - 40 * MS_PER_DAY)) = js "1 months ago"
  /\ daysAgo now (Some (now - 400 * MS_PER_DAY)) = js "1 years ago".
Proof.
  split.
  - exists (ceil_div (Z.abs (now - date)) MS_PER_DAY).
    pose proof (ceil_div_day (Z.abs (now - date))) as Hc.
    unfold daysAgo, diffDays, num_eqb, num_ltb, floor_div.
    set (d := ceil_div (Z.abs (now - date)) MS_PER_DAY) in *.
    assert (Hd : 0 <= d).
    { unfold MS_PER_DAY in Hc. lia. }
    split; [reflexivity |]. split; [exact Hc |]. split; [exact Hd |].
    destruct (Z.eqb_spec d 0), (Z.eqb_spec d 1), (Z.ltb_spec d 7),
      (Z.ltb_spec d 30), (Z.ltb_spec d 365);
      repeat split; intros; try lia; reflexivity.
  - unfold daysAgo.
    rewrite !diffDays_exact by lia. repeat split; reflexivity.
Qed.

Lemma daysAgo_labels_witness :
  daysAgo 1700000000000 (Some 1699000000000)
  = Number_toString (Int (12 / 7)) ++ js " weeks ago".
Proof.
  destruct (daysAgo_labels 1700000000000 1699000000000)
    as ((d & Hd & _ & _ & _ & _ & _ & Hweeks & _) & _).
  injection Hd as Hd. subst d.
  apply Hweeks. vm_compute. split; discriminate.
Defined.

(** C10. [daysAgo] takes the absolute value of the difference, so a date
    some time after [now] gets the label of the date as long before it: the
    result is the same for the pair reflected about [now] and for the two
    instants exchanged, and a date 5 days ahead yields [5 days ago]. *)
Theorem daysAgo_symmetric (now delta : Z) :
  daysAgo now (Some (now + delta)) = daysAgo now (Some (now - delta))
  /\ daysAgo now (Some (now + delta)) = daysAgo (now + delta) (Some now)
  /\ daysAgo now (Some (now + 5 * MS_PER_DAY)) = js "5 days ago".
Proof.
  assert (E : forall a b c e : Z,
             Z.abs (a - b) = Z.abs (c - e) ->
             daysAgo a (Some b) = daysAgo c (Some e)).
  { intros a b c e H. unfold daysAgo, diffDays. rewrite H. reflexivity. }
  split; [apply E; lia |]. split; [apply E; lia |].
  rewrite (E now (now + 5 * MS_PER_DAY) now (now - 5 * MS_PER_DAY))%Z by lia.
  unfold daysAgo. rewrite diffDays_exact by lia. reflexivity.
Qed.

End RelativeTime.

(** ** Remote calls and the notification banner *)

Section RemoteCalls.

(** C9. An ajax-form submission shows exactly one notification: the server's
    message as a success when the response's success flag is set, the
    server's message as an error when it is not, and the fixed message
    [Something went wrong. Please try again.] as an error when the call
    fails. *)
Theorem ajaxForm_outcomes (p : page) (m : jstring) :
  notifications
    (settle ajaxForm_callbacks
       (Done {| fr_success := true; fr_message := m |}) p)
  = {| title := js "Success!"; message := m; type := js "success" |}
      :: notifications p
  /\ notifications
       (settle ajaxForm_callbacks
          (Done {| fr_success := false; fr_message := m |}) p)
     = {| title := js "Error!"; message := m; type := js "error" |}
         :: notifications p
  /\ notifications (settle ajaxForm_callbacks Failed p)
     = {| title := js "Error!";
          message := js "Something went wrong. Please try again.";
          type := js "error" |} :: notifications p
  /\ (forall r : ajax_result form_response,
        List.length (notifications (settle ajaxForm_callbacks r p))
        = S (List.length (notifications p))).
Proof.
  repeat split.
  intros [[[] m'] |]; reflexivity.
Qed.

(** C2. A parsing call that fails in transport shows the fixed error
    [Failed to parse resume.]; a response whose success flag is not set
    shows nothing and leaves the page as it was. *)
Theorem parseResume_unsuccessful_response_silent
  (parse_markup : jstring -> list node) (p : page)
  (name email phone : option jstring) (skills : option (list jstring)) :
  settle (parseResume_callbacks parse_markup)
    (Done {| rd_success := false; rd_name := name; rd_email := email;
             rd_phone := phone; rd_skills := skills |}) p = p
  /\ notifications (settle (parseResume_callbacks parse_markup) Failed p)
     = {| title := js "Error!"; message := js "Failed to parse resume.";
          type := js "error" |} :: notifications p.
Proof. split; reflexivity. Qed.

(** C3, as stated, fails: a failed unread-count poll shows nothing. *)
Lemma failed_poll_shows_nothing :
  notifications (settle checkNotifications_callbacks Failed blank_page) = []
  /\ ~ every_call_reports_failure.
Proof.
  split; [reflexivity |].
  intros (_ & _ & _ & _ & H).
  destruct (H blank_page) as (n & Hn & _). discriminate Hn.
Qed.

(** C3, amended. A transport failure of the two POST calls puts one error
    notification (title [Error!], type [error]) first on the banner: for
    the ajax-form submission with the message
    [Something went wrong. Please try again.], for the resume parsing with
    [Failed to parse resume.]. The autocomplete GET and the unread-count
    GET register no failure callback: their failure shows nothing and
    leaves the page as it was. *)
Theorem failure_reporting (parse_markup : jstring -> list node) (p : page) :
  reports_failure ajaxForm_callbacks
  /\ reports_failure (parseResume_callbacks parse_markup)
  /\ ignores_failure (jobSearch_callbacks jstring)
  /\ ignores_failure checkNotifications_callbacks
  /\ notifications (settle ajaxForm_callbacks Failed p)
     = {| title := js "Error!";
          message := js "Something went wrong. Please try again.";
          type := js "error" |} :: notifications p
  /\ notifications (settle (parseResume_callbacks parse_markup) Failed p)
     = {| title := js "Error!"; message := js "Failed to parse resume.";
          type := js "error" |} :: notifications p.
Proof.
  repeat split; try reflexivity.
  - intros q. eexists. simpl. repeat split; reflexivity.
  - intros q. eexists. simpl. repeat split; reflexivity.
Qed.

(** The jobs GET has no failure callback either: after a failed call the
    control stays as the click left it. *)
Lemma loadMore_failure_unhandled (p : page) :
  settle loadMore_callbacks Failed (fst (loadMore_click p))
  = fst (loadMore_click p)
  /\ disabled (loadMoreJobs (pager (fst (loadMore_click p)))) = true.
Proof. split; reflexivity. Qed.

End RemoteCalls.

(** ** Resume upload *)

Section ResumeUpload.
Local Open Scope N_scope.

(** The size shown is rounded to hundredths of a megabyte, and the test is
    made on the rounded size: it rejects from 5.005 MB on. *)
Lemma size_test_threshold (size : N) :
  (500 <? toFixed2 size (1024 * 1024)) = (5248123 <=? size).
Proof.
  unfold toFixed2. change (2 * (1024 * 1024)) with 2097152.
  change (1024 * 1024) with 1048576.
  destruct (N.leb_spec 5248123 size) as [H | H].
  - apply N.ltb_lt.
    apply N.lt_le_trans with (m := 501); [lia |].
    apply N.div_le_lower_bound; lia.
  - apply N.ltb_ge.
    apply N.lt_succ_r. apply N.Div0.div_lt_upper_bound. lia.
Qed.

Lemma resumeUpload_rejects (f : file) (fs : list file) (p : page) :
  5248123 <= file_size f ->
  resumeUpload_change (f :: fs) p
  = (set_form
       {| resumeUpload := []; resumeFileName := resumeFileName (form p);
          fullName := fullName (form p); email := email (form p);
          phone := phone (form p) |}
       (set_alerts (js "File size should be less than 5MB" :: alerts p) p),
     None).
Proof.
  intros H. unfold resumeUpload_change.
  rewrite size_test_threshold. apply N.leb_le in H. rewrite H. reflexivity.
Qed.

Lemma resumeUpload_accepts (f : file) (fs : list file) (p : page) :
  file_size f < 5248123 ->
  resumeUpload_change (f :: fs) p
  = (set_form
       {| resumeUpload := resumeUpload (form p);
          resumeFileName :=
            file_name f ++ js " ("
              ++ fixed2_string (toFixed2 (file_size f) (1024 * 1024))
              ++ js " MB)";
          fullName := fullName (form p); email := email (form p);
          phone := phone (form p) |} p,
     Some (parseResume f)).
Proof.
  intros H. unfold resumeUpload_change.
  rewrite size_test_threshold. apply N.leb_gt in H. rewrite H. reflexivity.
Qed.

(** Sizes shown as 5.01 MB and as 4.99 MB. *)
Lemma resumeUpload_5_01_and_4_99 :
  fixed2_string (toFixed2 5253366 (1024 * 1024)) = js "5.01"
  /\ resumeUpload_change
       [{| file_name := js "cv.pdf"; file_size := 5253366 |}] chosen_page
     = (set_alerts [js "File size should be less than 5MB"] blank_page, None)
  /\ fixed2_string (toFixed2 5232394 (1024 * 1024)) = js "4.99"
  /\ resumeUpload_change
       [{| file_name := js "cv.pdf"; file_size := 5232394 |}] chosen_page
     = (set_form
          {| resumeUpload := js "C:\fakepath\cv.pdf";
             resumeFileName := js "cv.pdf (4.99 MB)";
             fullName := []; email := []; phone := [] |} blank_page,
        Some (parseResume {| file_name := js "cv.pdf";
                             file_size := 5232394 |})).
Proof. repeat split; reflexivity. Qed.

(** The handler rejects exactly the files of at least 5248123 bytes. *)
Lemma resumeUpload_rejects_iff (f : file) (fs : list file) (p : page) :
  snd (resumeUpload_change (f :: fs) p) = None <-> 5248123 <= file_size f.
Proof.
  destruct (N.le_gt_cases 5248123 (file_size f)) as [H | H].
  - rewrite resumeUpload_rejects by assumption. simpl. tauto.
  - rewrite resumeUpload_accepts by assumption. simpl.
    split; [discriminate | lia].
Qed.

(** C1. A file of 5 MB and one byte exceeds 5 MB, yet the handler shows no
    alert, keeps the input, displays the name with [5.00 MB] and makes the
    parsing call: the test is made on the size rounded to two decimals. *)
Theorem resumeUpload_accepts_over_5MB :
  5 * MB < 5242881
  /\ resumeUpload_change
       [{| file_name := js "cv.pdf"; file_size := 5242881 |}] chosen_page
     = (set_form
          {| resumeUpload := js "C:\fakepath\cv.pdf";
             resumeFileName := js "cv.pdf (5.00 MB)";
             fullName := []; email := []; phone := [] |} blank_page,
        Some (parseResume {| file_name := js "cv.pdf";
                             file_size := 5242881 |}))
  /\ alerts
       (fst (resumeUpload_change
               [{| file_name := js "cv.pdf"; file_size := 5242881 |}]
               chosen_page)) = [].
Proof. repeat split; reflexivity. Qed.

End ResumeUpload.

(** ** Skill tags *)

Section SkillTags.

Lemma drop_spaces_app (s t : jstring) :
  drop_spaces (s ++ t)
  = match drop_spaces s with
    | [] => drop_spaces t
    | c :: r => (c :: r) ++ t
    end.
Proof.
  induction s as [|c s IH]; simpl.
  - destruct (drop_spaces t); reflexivity.
  - destruct (is_space c); [exact IH | reflexivity].
Qed.

(** The space that follows the skill in a tag disappears in the trim. *)
Lemma trim_trailing_space (s : jstring) : trim (s ++ js " ") = trim s.
Proof.
  unfold trim. rewrite drop_spaces_app.
  destruct (drop_spaces s) as [|c r]; [reflexivity |].
  change (js " ") with [32%N]. rewrite rev_unit. reflexivity.
Qed.

Lemma remove_at_map (A B : Type) (f : A -> B) (i : nat) (l : list A) :
  remove_at i (map f l) = map f (remove_at i l).
Proof.
  revert i. induction l as [|x l IH]; intros [|i]; simpl;
    try reflexivity. rewrite IH. reflexivity.
Qed.

Lemma remove_at_beyond (A : Type) (i : nat) (l : list A) :
  nth_error l i = None -> remove_at i l = l.
Proof.
  revert i. induction l as [|x l IH]; intros [|i]; simpl;
    try reflexivity; [discriminate |].
  intros H. rewrite (IH i H). reflexivity.
Qed.

Lemma apply_ops_snoc (parse_markup : jstring -> list node)
  (ops : list skill_op) (op : skill_op) (e : skill_editor) :
  apply_ops parse_markup (ops ++ [op]) e
  = apply_op parse_markup (apply_ops parse_markup ops e) op.
Proof. unfold apply_ops. rewrite fold_left_app. reflexivity. Qed.

(** A row of tags: the texts selected are the texts of the spans. *)
Lemma tag_texts_row (texts : list jstring) :
  tag_texts (Some (map tag_node texts)) = texts.
Proof.
  unfold tag_texts. induction texts as [|t texts IH]; [reflexivity |].
  cbn [map flat_map]. change (find_class (js "skill-tag") (tag_node t))
    with [tag_node t].
  cbn [app map]. rewrite IH.
  change (textContent (tag_node t)) with (t ++ []).
  rewrite app_nil_r. reflexivity.
Qed.

(** On a row of tags, adding a plain-text skill puts its span at the end. *)
Lemma add_plain (parse_markup : jstring -> list node) (skill : jstring)
  (texts : list jstring) (h : jstring) :
  plain_text skill = true ->
  addSkillTag parse_markup skill
    {| skillTags := Some (map tag_node texts); skills := h |}
  = {| skillTags := Some (map tag_node (texts ++ [skill ++ js " "]));
       skills := read_skills
                   (Some (map tag_node (texts ++ [skill ++ js " "]))) |}.
Proof.
  intros H. unfold addSkillTag, render. cbn [skillTags option_map].
  rewrite H, map_app. reflexivity.
Qed.

(** On a row of tags, the close button of tag [i] takes that tag away. *)
Lemma remove_close (i : nat) (texts : list jstring) (h : jstring) :
  removeSkillTag (close_of i)
    {| skillTags := Some (map tag_node texts); skills := h |}
  = {| skillTags := Some (map tag_node (remove_at i texts));
       skills := read_skills (Some (map tag_node (remove_at i texts))) |}.
Proof.
  unfold removeSkillTag, close_of. cbn [skillTags node_at].
  rewrite nth_error_map.
  destruct (nth_error texts i) as [t |] eqn:E; cbn [option_map].
  - cbn [tag_node nth_error removelast delete_at].
    rewrite remove_at_map. reflexivity.
  - rewrite (remove_at_beyond _ _ E). reflexivity.
Qed.

(** Plain-text additions and clicks on close buttons keep a row of tags:
    the spans of the tracked skills, each followed by a space. *)
Lemma tags_track (parse_markup : jstring -> list node)
  (ops : list skill_op) (h : jstring) :
  forallb plain_op ops = true ->
  skillTags
    (apply_ops parse_markup ops {| skillTags := Some []; skills := h |})
  = Some (map tag_node
            (map (fun skill => skill ++ js " ") (fold_left track ops []))).
Proof.
  induction ops as [|op ops IH] using rev_ind; [reflexivity |].
  rewrite forallb_app. intros H. apply andb_true_iff in H.
  destruct H as [Hops Hop]. specialize (IH Hops).
  rewrite apply_ops_snoc, fold_left_app. cbn [fold_left].
  destruct (apply_ops parse_markup ops
              {| skillTags := Some []; skills := h |}) as [dom h'].
  cbn [skillTags] in IH. subst dom.
  destruct op as [skill | [i rest]]; cbn [apply_op track].
  - cbn [forallb plain_op] in Hop. rewrite andb_true_r in Hop.
    rewrite (add_plain parse_markup _ _ h' Hop). cbn [skillTags].
    rewrite !map_app. reflexivity.
  - destruct rest as [|[|[|k]] [|r rest]]; try discriminate Hop.
    change (i, [1]) with (close_of i).
    rewrite remove_close. cbn [skillTags].
    rewrite remove_at_map. reflexivity.
Qed.

Lemma skills_after_op (parse_markup : jstring -> list node)
  (e : skill_editor) (op : skill_op) :
  skills (apply_op parse_markup e op)
  = read_skills (skillTags (apply_op parse_markup e op)).
Proof. destruct op; reflexivity. Qed.

(** C5. After every [addSkillTag] and every [removeSkillTag], whatever came
    before and whatever the browser parsed from the skills, the hidden
    skills field is the comma-join of the texts of the [.skill-tag]
    elements under [#skillTags], in document order, each trimmed and with
    the marker [×] removed. Starting without tags, with plain-text skills
    and clicks on close buttons, the tags show the skills added and not
    removed, and the field is their join. Adding [Go] and [Rust] and
    removing [Go] leaves [Rust]. *)
Theorem hidden_field_mirrors_tags (parse_markup : jstring -> list node)
  (e : skill_editor) (ops : list skill_op) (op : skill_op) (h : jstring) :
  skills (apply_op parse_markup (apply_ops parse_markup ops e) op)
  = join (js ",")
      (map (fun text => replace [215%N] [] (trim text))
         (tag_texts
            (skillTags
               (apply_op parse_markup (apply_ops parse_markup ops e) op))))
  /\ (forallb plain_op (ops ++ [op]) = true ->
      tag_texts
        (skillTags
           (apply_ops parse_markup (ops ++ [op])
              {| skillTags := Some []; skills := h |}))
      = map (fun skill => skill ++ js " ") (fold_left track (ops ++ [op]) [])
      /\ skills
           (apply_ops parse_markup (ops ++ [op])
              {| skillTags := Some []; skills := h |})
         = join (js ",")
             (map (fun skill => replace [215%N] [] (trim skill))
                (fold_left track (ops ++ [op]) [])))
  /\ apply_ops parse_markup
       [Add (js "Go"); Add (js "Rust"); Remove (close_of 0)]
       {| skillTags := Some []; skills := h |}
     = {| skillTags := Some [tag_node (js "Rust ")]; skills := js "Rust" |}.
Proof.
  split; [apply skills_after_op |]. split; [| reflexivity].
  intros H. pose proof (tags_track parse_markup (ops ++ [op]) h H) as T.
  split.
  - rewrite T. apply tag_texts_row.
  - rewrite apply_ops_snoc, skills_after_op, <- apply_ops_snoc, T.
    unfold read_skills. rewrite tag_texts_row, map_map. f_equal.
    apply map_ext. intros skill. unfold tag_skill.
    rewrite trim_trailing_space. reflexivity.
Qed.

Lemma hidden_field_mirrors_tags_witness :
  skills
    (apply_ops (fun _ => []) ([Add (js "Go"); Remove (close_of 3)]
                                ++ [Add (js "C#")])
       {| skillTags := Some []; skills := [] |})
  = js "Go,C#".
Proof.
  destruct (hidden_field_mirrors_tags (fun _ => [])
              {| skillTags := Some []; skills := [] |}
              [Add (js "Go"); Remove (close_of 3)] (Add (js "C#")) [])
    as (_ & H & _).
  apply H. reflexivity.
Defined.

End SkillTags.

(** ** Load more *)

Section LoadMore.
Local Open Scope Z_scope.

Lemma run_pager_snoc (evs : list pager_event) (ev : pager_event) (p : page) :
  run_pager (evs ++ [ev]) p = pager_step (run_pager evs p) ev.
Proof. unfold run_pager. rewrite fold_left_app. reflexivity. Qed.

Lemma clicks_snoc (evs : list pager_event) (ev : pager_event) :
  clicks (evs ++ [ev])
  = match ev with Click => S (clicks evs) | Settled _ => clicks evs end.
Proof.
  unfold clicks. rewrite filter_app, length_app.
  destruct ev; simpl; lia.
Qed.

Lemma settle_keeps_page_number (r : ajax_result jobs_response) (p : page) :
  currentPage (pager (settle loadMore_callbacks r p)) = currentPage (pager p).
Proof.
  destruct r as [[[l |]] |]; simpl; try reflexivity.
  destruct (0 <? List.length l)%nat; reflexivity.
Qed.

(** One click: the counter goes up by one, the control is disabled and
    shows the loading indicator, and the page asked for is the new one. *)
Lemma loadMore_click_spec (p : page) :
  currentPage (pager (fst (loadMore_click p))) = currentPage (pager p) + 1
  /\ disabled (the_button (fst (loadMore_click p))) = true
  /\ content (the_button (fst (loadMore_click p))) = loading_markup
  /\ snd (loadMore_click p)
     = page_request (currentPage (pager (fst (loadMore_click p)))).
Proof. repeat split; reflexivity. Qed.

(** The counter counts the clicks, and the requests ask for the pages that
    follow the first one, in order. *)
Lemma run_pager_requests (evs : list pager_event) (p : page) :
  currentPage (pager (fst (run_pager evs p)))
  = currentPage (pager p) + Z.of_nat (clicks evs)
  /\ snd (run_pager evs p)
     = map (fun k => page_request (currentPage (pager p) + 1 + Z.of_nat k))
         (seq 0 (clicks evs)).
Proof.
  induction evs as [|ev evs [IHc IHr]] using rev_ind.
  - simpl. split; [lia | reflexivity].
  - rewrite run_pager_snoc, clicks_snoc.
    destruct (run_pager evs p) as [q sent] eqn:E. simpl in IHc, IHr.
    destruct ev as [|r]; unfold pager_step.
    + pose proof (loadMore_click_spec q) as (Hc & _ & _ & Hr).
      destruct (loadMore_click q) as [q' rq]. cbn [fst snd] in *.
      split; [lia |].
      rewrite seq_S, map_app, <- IHr. cbn [map]. subst rq.
      rewrite Hc, IHc. do 3 f_equal. lia.
    + cbn [fst snd]. rewrite settle_keeps_page_number. split; assumption.
Qed.

Lemma step_keeps_detached (st : page * list request) (ev : pager_event) :
  attached (the_button (fst st)) = false ->
  attached (the_button (fst (pager_step st ev))) = false.
Proof.
  destruct st as [p sent]. unfold the_button. simpl. intros H.
  destruct ev as [|[[[l |]] |]]; simpl; try assumption.
  destruct (0 <? List.length l)%nat; simpl; [assumption | reflexivity].
Qed.

(** Nothing puts a removed control back. *)
Lemma removed_for_good (evs : list pager_event) (p : page) :
  attached (the_button p) = false ->
  attached (the_button (fst (run_pager evs p))) = false.
Proof.
  intros H. induction evs as [|ev evs IH] using rev_ind; [exact H |].
  rewrite run_pager_snoc. apply step_keeps_detached. exact IH.
Qed.

Lemma run_ignores_sent (evs : list pager_event) (p : page)
  (s1 s2 : list request) :
  fst (fold_left pager_step evs (p, s1))
  = fst (fold_left pager_step evs (p, s2)).
Proof.
  revert p s1 s2. induction evs as [|ev evs IH]; intros p s1 s2;
    [reflexivity |].
  cbn [fold_left].
  assert (H : fst (pager_step (p, s1) ev) = fst (pager_step (p, s2) ev)).
  { destruct ev; unfold pager_step;
      [destruct (loadMore_click p) |]; reflexivity. }
  destruct (pager_step (p, s1) ev) as [a sa],
    (pager_step (p, s2) ev) as [b sb].
  cbn [fst] in H. subst b. apply IH.
Qed.

Lemma run_pager_cons (ev : pager_event) (evs : list pager_event) (p : page) :
  fst (run_pager (ev :: evs) p)
  = fst (run_pager evs (fst (pager_step (p, []) ev))).
Proof.
  unfold run_pager. cbn [fold_left].
  destruct (pager_step (p, []) ev) as [q sent]. apply run_ignores_sent.
Qed.

Lemma run_pager_app (evs rest : list pager_event) (p : page) :
  fst (run_pager (evs ++ rest) p)
  = fst (run_pager rest (fst (run_pager evs p))).
Proof.
  unfold run_pager. rewrite fold_left_app.
  destruct (fold_left pager_step evs (p, [])) as [q sent].
  apply run_ignores_sent.
Qed.

(** C8. The page counter starts at 1. A click increments it, disables the
    control with the loading indicator and issues the GET for the new page,
    so that the clicks ask for pages 2, 3, ... in order: the nth click for
    page n+1. A response with at least one job enables the control again
    with the label [Load More]; a response with no job removes the control,
    and nothing brings it back. An empty response to the first click removes
    the control. *)
Theorem loadMore_paging (p0 : page) (b : button) (evs : list pager_event)
  (job : jstring) (more : list jstring) :
  let start := set_pager (initial_pager b) p0 in
  let here := fst (run_pager evs start) in
  currentPage (pager start) = 1
  /\ currentPage (pager (fst (loadMore_click here)))
     = currentPage (pager here) + 1
  /\ disabled (the_button (fst (loadMore_click here))) = true
  /\ content (the_button (fst (loadMore_click here))) = loading_markup
  /\ snd (run_pager evs start)
     = map (fun k => page_request (Z.of_nat k + 2)) (seq 0 (clicks evs))
  /\ snd (loadMore_click here) = page_request (Z.of_nat (clicks evs) + 2)
  /\ the_button
       (settle loadMore_callbacks (Done {| jobs := Some (job :: more) |}) here)
     = {| attached := attached (the_button here); disabled := false;
          content := js "Load More" |}
  /\ (forall later : list pager_event,
        attached
          (the_button
             (fst (run_pager
                     (evs ++ Settled (Done {| jobs := Some [] |}) :: later)
                     start))) = false)
  /\ attached
       (the_button
          (fst (run_pager [Click; Settled (Done {| jobs := Some [] |})]
                  start))) = false
  /\ the_button
       (fst (run_pager
               [Click; Settled (Done {| jobs := Some (job :: more) |})]
               start))
     = {| attached := attached b; disabled := false;
          content := js "Load More" |}.
Proof.
  intros start here.
  destruct (run_pager_requests evs start) as [Hc Hr].
  destruct (loadMore_click_spec here) as (Kc & Kd & Kt & Kr).
  change (currentPage (pager start)) with 1 in Hc, Hr.
  fold here in Hc.
  repeat split; try reflexivity; try assumption.
  - rewrite Hr. apply map_ext. intros k. f_equal. lia.
  - rewrite Kr, Kc, Hc. f_equal. lia.
  - intros later. rewrite run_pager_app, run_pager_cons.
    apply removed_for_good. reflexivity.
Qed.

End LoadMore.

(** ** More on email validation *)

Section EmailMore.

Lemma atom_facts (a : jstring) :
  forallb atom a = true ->
  count_occ N.eq_dec a 64%N = 0
  /\ forallb (fun c => negb (is_space c)) a = true.
Proof.
  induction a as [|c a IH]; simpl; [auto |].
  intros H. apply andb_true_iff in H. destruct H as [Hc Ha].
  destruct (IH Ha) as [IH1 IH2]. unfold atom in Hc.
  apply andb_true_iff in Hc. destruct Hc as [Hs Hat].
  rewrite Hs, IH2. split; [| reflexivity].
  destruct (N.eq_dec c 64) as [-> | _]; [discriminate Hat | exact IH1].
Qed.

Lemma truthy_nonempty (s : jstring) : s <> [] -> truthy s = true.
Proof. destruct s; [congruence | reflexivity]. Qed.

Lemma blur_mark (i : email_input) :
  is_invalid (email_blur i)
  = truthy (value i) && negb (accepts emailRegex (value i)).
Proof.
  unfold email_blur, test_anchored.
  destruct (truthy (value i) && negb (accepts emailRegex (value i)));
    reflexivity.
Qed.

(** X1. A non-empty value passes the email check exactly when it has the
    shape [word@word.word], a word being a non-empty run of characters other
    than white space and [@]. *)
Theorem email_blur_accepts_shaped (i : email_input) :
  value i <> [] ->
  (is_invalid (email_blur i) = false <-> email_shaped (value i)).
Proof.
  intros Hne. rewrite blur_mark, <- email_pattern_shape, <- accepts_matches.
  rewrite (truthy_nonempty Hne).
  destruct (accepts emailRegex (value i)); simpl; split; congruence.
Qed.

Lemma email_blur_accepts_shaped_witness :
  is_invalid
    (email_blur {| value := js "ann@example.org"; is_invalid := false;
                   invalid_feedback := [] |}) = false
  <-> email_shaped (js "ann@example.org").
Proof.
  apply (email_blur_accepts_shaped
           {| value := js "ann@example.org"; is_invalid := false;
              invalid_feedback := [] |}).
  discriminate.
Defined.

(** X2. A non-empty value that passes the email check holds exactly one
    [@], no white space, and at least five code units. *)
Theorem email_blur_accepted_facts (i : email_input) :
  value i <> [] ->
  is_invalid (email_blur i) = false ->
  count_occ N.eq_dec (value i) 64%N = 1
  /\ forallb (fun c => negb (is_space c)) (value i) = true
  /\ 5 <= List.length (value i).
Proof.
  intros Hne Hok.
  assert (Hs : email_shaped (value i)).
  { rewrite blur_mark in Hok. apply email_pattern_shape, accepts_matches.
    rewrite (truthy_nonempty Hne) in Hok.
    destruct (accepts emailRegex (value i)); [reflexivity | discriminate]. }
  destruct Hs as (a & b & c & -> & [Ha Fa] & [Hb Fb] & [Hc Fc]).
  destruct (atom_facts _ Fa) as [Ca Sa], (atom_facts _ Fb) as [Cb Sb],
    (atom_facts _ Fc) as [Cc Sc].
  repeat split.
  - rewrite !count_occ_app, Ca, Cb, Cc. reflexivity.
  - rewrite !forallb_app. unfold code_unit in *.
    rewrite Sa, Sb, Sc. reflexivity.
  - rewrite !length_app. simpl.
    destruct a; [exfalso; apply Ha; reflexivity |].
    destruct b; [exfalso; apply Hb; reflexivity |].
    destruct c; [exfalso; apply Hc; reflexivity |]. simpl. lia.
Qed.

Lemma email_blur_accepted_facts_witness :
  count_occ N.eq_dec (js "ann@example.org") 64%N = 1
  /\ forallb (fun c => negb (is_space c)) (js "ann@example.org") = true
  /\ 5 <= List.length (js "ann@example.org").
Proof.
  apply (email_blur_accepted_facts
           {| value := js "ann@example.org"; is_invalid := true;
              invalid_feedback := [] |}).
  - discriminate.
  - reflexivity.
Defined.

(** X3. The handler never erases the message: when a rejected value is
    corrected and the field loses focus again, the invalid mark goes but the
    feedback element still holds [Please enter a valid email address.]. *)
Theorem email_blur_message_stays (i : email_input) (v : jstring) :
  value i <> [] ->
  ~ matches emailRegex (value i) ->
  matches emailRegex v ->
  email_blur {| value := v; is_invalid := is_invalid (email_blur i);
                invalid_feedback := invalid_feedback (email_blur i) |}
  = {| value := v; is_invalid := false;
       invalid_feedback := js "Please enter a valid email address." |}.
Proof.
  intros Hne Hbad Hgood.
  apply accepts_matches in Hgood.
  assert (Hb : accepts emailRegex (value i) = false).
  { destruct (accepts emailRegex (value i)) eqn:E; [| reflexivity].
    apply accepts_matches in E. contradiction. }
  unfold email_blur, test_anchored. simpl value. rewrite Hgood, Hb.
  rewrite andb_false_r, andb_true_r, (truthy_nonempty Hne). reflexivity.
Qed.

Lemma email_blur_message_stays_witness :
  email_blur
    {| value := js "ann@example.org";
       is_invalid :=
         is_invalid
           (email_blur {| value := js "ann"; is_invalid := false;
                          invalid_feedback := [] |});
       invalid_feedback :=
         invalid_feedback
           (email_blur {| value := js "ann"; is_invalid := false;
                          invalid_feedback := [] |}) |}
  = {| value := js "ann@example.org"; is_invalid := false;
       invalid_feedback := js "Please enter a valid email address." |}.
Proof.
  apply (email_blur_message_stays
           {| value := js "ann"; is_invalid := false;
              invalid_feedback := [] |}).
  - discriminate.
  - intros M. apply accepts_matches in M. discriminate.
  - apply accepts_matches. reflexivity.
Defined.

End EmailMore.

(** ** More on password strength *)

Section PasswordMore.

Lemma existsb_grows (f : code_unit -> bool) (pre pw post : jstring) :
  existsb f pw = true -> existsb f (pre ++ pw ++ post) = true.
Proof.
  intros H. rewrite !existsb_app, H. apply orb_true_iff. right. reflexivity.
Qed.

(** X4. Characters added to a password, before, after or on both sides,
    never lower its score. *)
Theorem password_strength_grows (pre pw post : jstring) :
  password_strength pw <= password_strength (pre ++ pw ++ post).
Proof.
  rewrite !password_strength_sum.
  assert (Hl : score (long_enough pw)
               <= score (long_enough (pre ++ pw ++ post))).
  { apply score_le. unfold long_enough. rewrite !length_app.
    intros H. apply Nat.leb_le in H. apply Nat.leb_le. lia. }
  assert (Hu : score (has_upper pw) <= score (has_upper (pre ++ pw ++ post)))
    by (apply score_le, existsb_grows).
  assert (Hd : score (has_digit pw) <= score (has_digit (pre ++ pw ++ post)))
    by (apply score_le, existsb_grows).
  assert (Hs : score (has_symbol pw)
               <= score (has_symbol (pre ++ pw ++ post)))
    by (apply score_le, existsb_grows).
  lia.
Qed.

Lemma only_lower (pw : jstring) :
  has_upper pw = false /\ has_digit pw = false /\ has_symbol pw = false
  <-> forallb is_lower pw = true.
Proof.
  unfold has_upper, has_digit, has_symbol.
  induction pw as [|c pw IH]; simpl; [tauto |].
  rewrite !orb_false_iff, andb_true_iff, <- IH.
  assert (Hc : is_upper c = false /\ is_digit c = false
               /\ negb (is_upper c || is_lower c || is_digit c) = false
               <-> is_lower c = true).
  { unfold is_upper, is_lower, is_digit.
    destruct (N.leb_spec 65 c), (N.leb_spec c 90), (N.leb_spec 97 c),
      (N.leb_spec c 122), (N.leb_spec 48 c), (N.leb_spec c 57);
      simpl; split; intros; repeat split; try congruence; try lia;
      tauto. }
  tauto.
Qed.

(** X5. A password scores 0 exactly when it is shorter than 8 code units
    and made of lowercase ASCII letters only (the empty password included);
    it scores 4 exactly when it meets all four criteria. *)
Theorem password_strength_extremes (pw : jstring) :
  (password_strength pw = 0
   <-> List.length pw < 8 /\ forallb is_lower pw = true)
  /\ (password_strength pw = 4
      <-> 8 <= List.length pw /\ has_upper pw = true
          /\ has_digit pw = true /\ has_symbol pw = true).
Proof.
  rewrite password_strength_sum, <- only_lower. unfold long_enough.
  destruct (Nat.leb_spec 8 (List.length pw)), (has_upper pw), (has_digit pw),
    (has_symbol pw); simpl; split; split; intros; repeat split;
    try congruence; try lia; try tauto.
Qed.

End PasswordMore.

(** ** More on the resume upload *)

Section ResumeMore.
Local Open Scope N_scope.

(** X6. The change handler by cases. Without a file nothing happens. A
    first file of 5248123 bytes or more gets the alert, the input is
    cleared, the file name shown stays as it was and no call is made. A
    smaller first file gets no alert, the input is kept, the size shown is
    at most 5.00 MB, and the parsing call is made for that file. *)
Theorem resumeUpload_cases (files : list file) (p : page) :
  (files = [] /\ resumeUpload_change files p = (p, None))
  \/ (exists f rest,
        files = f :: rest /\ 5248123 <= file_size f
        /\ snd (resumeUpload_change files p) = None
        /\ alerts (fst (resumeUpload_change files p))
           = js "File size should be less than 5MB" :: alerts p
        /\ resumeUpload (form (fst (resumeUpload_change files p))) = []
        /\ resumeFileName (form (fst (resumeUpload_change files p)))
           = resumeFileName (form p))
  \/ (exists f rest,
        files = f :: rest /\ file_size f < 5248123
        /\ snd (resumeUpload_change files p) = Some (parseResume f)
        /\ alerts (fst (resumeUpload_change files p)) = alerts p
        /\ resumeUpload (form (fst (resumeUpload_change files p)))
           = resumeUpload (form p)
        /\ resumeFileName (form (fst (resumeUpload_change files p)))
           = file_name f ++ js " ("
               ++ fixed2_string (toFixed2 (file_size f) (1024 * 1024))
               ++ js " MB)"
        /\ toFixed2 (file_size f) (1024 * 1024) <= 500).
Proof.
  destruct files as [|f rest]; [left; split; reflexivity |].
  right. destruct (N.le_gt_cases 5248123 (file_size f)) as [H | H].
  - left. exists f, rest. rewrite resumeUpload_rejects by assumption.
    repeat split; assumption.
  - right. exists f, rest. rewrite resumeUpload_accepts by assumption.
    repeat split; try assumption.
    apply N.ltb_ge. rewrite size_test_threshold. apply N.leb_gt. exact H.
Qed.

End ResumeMore.

(** ** More on skill tags *)

Section SkillsMore.

Lemma drop_spaces_head (s : jstring) (c : code_unit) (r : jstring) :
  drop_spaces s = c :: r -> is_space c = false.
Proof.
  induction s as [|x s IH]; simpl; [discriminate |].
  destruct (is_space x) eqn:E; [exact IH |].
  intros H. injection H as <- _. exact E.
Qed.

Lemma drop_spaces_split (s : jstring) :
  exists sp, s = sp ++ drop_spaces s.
Proof.
  induction s as [|x s [sp IH]]; simpl; [exists []; reflexivity |].
  destruct (is_space x).
  - exists (x :: sp). simpl. rewrite <- IH. reflexivity.
  - exists []. reflexivity.
Qed.

Lemma drop_spaces_fixed (c : code_unit) (r : jstring) :
  is_space c = false -> drop_spaces (c :: r) = c :: r.
Proof. intros H. simpl. rewrite H. reflexivity. Qed.

(** A trimmed string is empty, or begins and ends with a character that is
    no white space. *)
Lemma trim_ends (s : jstring) :
  trim s = []
  \/ exists x t c r,
       trim s = x :: t /\ is_space x = false
       /\ rev (trim s) = c :: r /\ is_space c = false.
Proof.
  unfold trim. destruct (drop_spaces (rev (drop_spaces s))) as [|c r] eqn:B;
    [left; reflexivity | right].
  pose proof (drop_spaces_head _ B) as Hc.
  destruct (drop_spaces_split (rev (drop_spaces s))) as [sp Hsp].
  rewrite B in Hsp. apply (f_equal (@rev code_unit)) in Hsp.
  rewrite rev_involutive, rev_app_distr in Hsp.
  destruct (rev (c :: r)) as [|x t] eqn:R.
  { apply (f_equal (@List.length code_unit)) in R.
    rewrite length_rev in R. discriminate R. }
  exists x, t, c, r. split; [reflexivity |]. split.
  - simpl in Hsp. exact (drop_spaces_head _ Hsp).
  - rewrite <- R, rev_involutive. split; [reflexivity | exact Hc].
Qed.

Lemma trim_fixed (x : code_unit) (t : jstring) (c : code_unit) (r : jstring) :
  is_space x = false -> rev (x :: t) = c :: r -> is_space c = false ->
  trim (x :: t) = x :: t.
Proof.
  intros Hx R Hc. unfold trim.
  rewrite (drop_spaces_fixed x t Hx), R, (drop_spaces_fixed c r Hc), <- R.
  apply rev_involutive.
Qed.

Lemma trim_idempotent (s : jstring) : trim (trim s) = trim s.
Proof.
  destruct (trim_ends s) as [E | (x & t & c & r & E & Hx & R & Hc)].
  - rewrite E. reflexivity.
  - rewrite E in *. apply trim_fixed with (c := c) (r := r); assumption.
Qed.

Lemma replace_absent (s : jstring) :
  ~ In 215%N s -> replace [215%N] [] s = s.
Proof.
  induction s as [|c s IH]; intros H; [reflexivity |].
  change (replace [215%N] [] (c :: s))
    with (if (215 =? c)%N && true then [] ++ skipn 1 (c :: s)
          else c :: replace [215%N] [] s).
  destruct (215 =? c)%N eqn:E.
  - apply N.eqb_eq in E. exfalso. apply H. left. symmetry. exact E.
  - cbn [andb]. rewrite IH; [reflexivity |].
    intros Hin. apply H. right. exact Hin.
Qed.

Lemma remove_at_last (A : Type) (l : list A) (x : A) :
  remove_at (List.length l) (l ++ [x]) = l.
Proof. induction l as [|y l IH]; simpl; [| rewrite IH]; reflexivity. Qed.

Lemma last_of_rev (s : jstring) (c : code_unit) (r : jstring)
  (d : code_unit) :
  rev s = c :: r -> last s d = c.
Proof.
  intros R. apply (f_equal (@rev code_unit)) in R.
  rewrite rev_involutive in R. subst s. simpl. apply last_last.
Qed.

Lemma add_plain_any (parse_markup : jstring -> list node)
  (skill : jstring) (e : skill_editor) :
  plain_text skill = true ->
  addSkillTag parse_markup skill e
  = {| skillTags :=
         option_map
           (fun children => children ++ [tag_node (skill ++ js " ")])
           (skillTags e);
       skills :=
         read_skills
           (option_map
              (fun children => children ++ [tag_node (skill ++ js " ")])
              (skillTags e)) |}.
Proof. intros H. unfold addSkillTag, render. rewrite H. reflexivity. Qed.

(** X7. One key press in the skill field, the trimmed text being plain
    text: nothing changes unless the key is Enter or comma; with one of
    these on a blank field only the default action is prevented, and the
    field is not cleared; otherwise the field is cleared and exactly one
    tag is appended, the span of the trimmed text, which is not empty and
    has no white space at either end. *)
Theorem skillsInput_keypress_tag (parse_markup : jstring -> list node)
  (which : Z) (input : jstring) (e : skill_editor) :
  plain_text (trim input) = true ->
  (which <> 13%Z /\ which <> 44%Z
   /\ skillsInput_keypress parse_markup which input e = (false, input, e))
  \/ ((which = 13%Z \/ which = 44%Z) /\ trim input = []
      /\ skillsInput_keypress parse_markup which input e = (true, input, e))
  \/ ((which = 13%Z \/ which = 44%Z)
      /\ skillsInput_keypress parse_markup which input e
         = (true, [],
            {| skillTags :=
                 option_map
                   (fun children =>
                      children ++ [tag_node (trim input ++ js " ")])
                   (skillTags e);
               skills :=
                 read_skills
                   (option_map
                      (fun children =>
                         children ++ [tag_node (trim input ++ js " ")])
                      (skillTags e)) |})
      /\ is_space (hd 32%N (trim input)) = false
      /\ is_space (last (trim input) 32%N) = false).
Proof.
  intros Hp. unfold skillsInput_keypress.
  rewrite (add_plain_any parse_markup _ e Hp).
  destruct (Z.eqb_spec which 13) as [E13 | N13];
    destruct (Z.eqb_spec which 44) as [E44 | N44]; cbn [orb];
    try (left; repeat split; assumption);
    right;
    (destruct (trim_ends input) as [T | (x & t & c & r & T & Hx & R & Hc)];
     [ left; rewrite T; repeat split; auto
     | right; rewrite (last_of_rev _ 32%N R), T; repeat split; auto ]).
Qed.

Lemma skillsInput_keypress_tag_witness :
  skillsInput_keypress (fun _ => []) 13 (js " Go ")
    {| skillTags := Some []; skills := [] |}
  = (true, [],
     {| skillTags := Some [tag_node (js "Go ")]; skills := js "Go" |}).
Proof.
  destruct (@skillsInput_keypress_tag (fun _ => []) 13%Z (js " Go ")
              {| skillTags := Some []; skills := [] |})
    as [(N & _) | [(_ & T & _) | (_ & H & _)]].
  - reflexivity.
  - exfalso. apply N. reflexivity.
  - vm_compute in T. discriminate T.
  - rewrite H. reflexivity.
Defined.

Lemma enter_skill_cases (parse_markup : jstring -> list node)
  (e : skill_editor) (input : jstring) :
  enter_skill parse_markup e input
  = if nonblank input then addSkillTag parse_markup (trim input) e else e.
Proof.
  unfold enter_skill, skillsInput_keypress, nonblank.
  change (13 =? 13)%Z with true. cbn [orb].
  destruct (truthy (trim input)); reflexivity.
Qed.

Lemma tag_of_trimmed (input : jstring) :
  tag_skill (trim input ++ js " ") = replace [215%N] [] (trim input).
Proof.
  unfold tag_skill. rewrite trim_trailing_space, trim_idempotent.
  reflexivity.
Qed.

(** X8. Starting without tags, typing texts into the skill field, each
    followed by Enter, the trimmed texts being plain text: one tag is left
    per non-blank text, in order, and the hidden field is the comma-join of
    the trimmed texts (less the first marker of each). Blank texts leave no
    trace; if all are blank the hidden field keeps its value. *)
Theorem enter_skills_field (parse_markup : jstring -> list node)
  (inputs : list jstring) (h : jstring) :
  forallb (fun i => plain_text (trim i)) inputs = true ->
  skillTags
    (enter_skills parse_markup inputs {| skillTags := Some []; skills := h |})
  = Some (map (fun i => tag_node (trim i ++ js " "))
            (filter nonblank inputs))
  /\ skills
       (enter_skills parse_markup inputs
          {| skillTags := Some []; skills := h |})
     = match filter nonblank inputs with
       | [] => h
       | _ :: _ =>
           join (js ",")
             (map (fun i => replace [215%N] [] (trim i))
                (filter nonblank inputs))
       end.
Proof.
  induction inputs as [|i inputs IH] using rev_ind;
    [intros _; split; reflexivity |].
  rewrite forallb_app. intros H. apply andb_true_iff in H.
  destruct H as [Hs Hi]. cbn [forallb] in Hi. rewrite andb_true_r in Hi.
  destruct (IH Hs) as [IHt IHs].
  unfold enter_skills in *. rewrite fold_left_app, filter_app.
  cbn [fold_left filter].
  rewrite enter_skill_cases. destruct (nonblank i).
  - rewrite (add_plain_any parse_markup _ _ Hi). cbn [skillTags skills].
    rewrite IHt. cbn [option_map].
    change [tag_node (trim i ++ js " ")]
      with (map (fun i0 => tag_node (trim i0 ++ js " ")) [i]).
    rewrite <- map_app. split; [reflexivity |].
    destruct (filter nonblank inputs ++ [i]) as [|k ks] eqn:K.
    { apply app_eq_nil in K. destruct K as [_ K]. discriminate K. }
    rewrite <- K. unfold read_skills.
    rewrite <- (map_map (fun i0 => trim i0 ++ js " ") tag_node).
    rewrite tag_texts_row, map_map. f_equal.
    apply map_ext. intros a. apply tag_of_trimmed.
  - rewrite app_nil_r. split; assumption.
Qed.

Lemma enter_skills_field_witness :
  skills
    (enter_skills (fun _ => []) [js " Go "; js "  "; js "C#"]
       {| skillTags := Some []; skills := [] |})
  = js "Go,C#".
Proof.
  destruct (@enter_skills_field (fun _ => [])
              [js " Go "; js "  "; js "C#"] []) as [_ H].
  - reflexivity.
  - rewrite H. reflexivity.
Defined.

(** X9. On a container whose hidden field is in step with it, adding a
    plain-text skill and then clicking the close button of the tag just
    added gives back the editor as it was. *)
Theorem add_then_remove_last (parse_markup : jstring -> list node)
  (children : list node) (skill : jstring) :
  plain_text skill = true ->
  removeSkillTag (close_of (List.length children))
    (addSkillTag parse_markup skill
       {| skillTags := Some children;
          skills := read_skills (Some children) |})
  = {| skillTags := Some children; skills := read_skills (Some children) |}.
Proof.
  intros H. rewrite (add_plain_any parse_markup _ _ H).
  unfold removeSkillTag, close_of. cbn [skillTags option_map node_at].
  rewrite nth_error_app2 by apply Nat.le_refl. rewrite Nat.sub_diag.
  cbn [nth_error tag_node removelast delete_at].
  rewrite remove_at_last. reflexivity.
Qed.

Lemma add_then_remove_last_witness :
  removeSkillTag (close_of 1)
    (addSkillTag (fun _ => []) (js "Rust")
       {| skillTags := Some [tag_node (js "Go ")]; skills := js "Go" |})
  = {| skillTags := Some [tag_node (js "Go ")]; skills := js "Go" |}.
Proof.
  apply (@add_then_remove_last (fun _ => []) [tag_node (js "Go ")]
           (js "Rust")).
  reflexivity.
Defined.

Lemma track_adds (l acc : list jstring) :
  fold_left track (map Add l) acc = acc ++ l.
Proof.
  revert acc. induction l as [|x l IH]; intros acc; simpl.
  - symmetry. apply app_nil_r.
  - rewrite IH, <- app_assoc. reflexivity.
Qed.

Lemma plain_adds (l : list jstring) :
  forallb plain_op (map Add l) = forallb plain_text l.
Proof. induction l as [|x l IH]; simpl; [| rewrite IH]; reflexivity. Qed.

Lemma skills_in_step (parse_markup : jstring -> list node)
  (ops : list skill_op) (e : skill_editor) :
  ops <> [] ->
  skills (apply_ops parse_markup ops e)
  = read_skills (skillTags (apply_ops parse_markup ops e)).
Proof.
  intros H. destruct (exists_last H) as (ops' & op & ->).
  rewrite apply_ops_snoc. apply skills_after_op.
Qed.

(** X10. Plain-text skills that carry no white space around them and no
    marker come back unchanged: after adding them to a container without
    tags the hidden field is exactly their comma-join. *)
Theorem clean_skills_round_trip (parse_markup : jstring -> list node)
  (first : jstring) (rest : list jstring) (h : jstring) :
  Forall clean (first :: rest) ->
  forallb plain_text (first :: rest) = true ->
  skills (apply_ops parse_markup (map Add (first :: rest))
            {| skillTags := Some []; skills := h |})
  = join (js ",") (first :: rest).
Proof.
  intros Hc Hp. rewrite skills_in_step by discriminate.
  rewrite tags_track by (rewrite plain_adds; exact Hp).
  rewrite track_adds. cbn [app].
  unfold read_skills. rewrite tag_texts_row, map_map. f_equal.
  rewrite <- (map_id (first :: rest)) at 2.
  apply map_ext_in. intros s Hs.
  rewrite Forall_forall in Hc. destruct (Hc s Hs) as [Ht Hm].
  unfold tag_skill. rewrite trim_trailing_space, Ht.
  apply replace_absent. exact Hm.
Qed.

Lemma clean_skills_round_trip_witness :
  skills (apply_ops (fun _ => []) (map Add [js "Go"; js "C++"])
            {| skillTags := Some []; skills := [] |})
  = join (js ",") [js "Go"; js "C++"].
Proof.
  apply (@clean_skills_round_trip (fun _ => []) (js "Go") [js "C++"] []).
  - repeat constructor; simpl; intros H; repeat destruct H as [H | H];
      try discriminate H; exact H.
  - reflexivity.
Defined.

Lemma remove_at_middle (A : Type) (a b : list A) (t : A) :
  remove_at (List.length a) (a ++ t :: b) = a ++ b.
Proof. induction a as [|x a IH]; simpl; [| rewrite IH]; reflexivity. Qed.

(** X21. Removing a tag takes exactly that tag away: the tags before and
    after it keep their order, and the hidden field is rewritten from them,
    whatever it held. *)
Theorem removeSkillTag_exact (a b : list jstring) (t h : jstring) :
  removeSkillTag (close_of (List.length a))
    {| skillTags := Some (map tag_node (a ++ t :: b)); skills := h |}
  = {| skillTags := Some (map tag_node (a ++ b));
       skills :=
         join (js ",")
           (map (fun text => replace [215%N] [] (trim text)) (a ++ b)) |}.
Proof.
  rewrite remove_close, remove_at_middle.
  unfold read_skills. rewrite tag_texts_row. reflexivity.
Qed.

End SkillsMore.

(** ** More on the parsing call *)

Section ParseMore.

Lemma fill_keeps (v : option jstring) (old : jstring) :
  truthy old = true -> truthy (fill v old) = true.
Proof.
  intros H. unfold fill. destruct v as [s |]; [| exact H].
  destruct (truthy s) eqn:E; assumption.
Qed.

(** X11. However the parsing call settles, a name, email or phone field
    that holds text still holds text afterwards: a response fills a field
    only with a non-empty value and never clears one. *)
Theorem parseResume_never_clears (parse_markup : jstring -> list node)
  (r : ajax_result resume_data) (p : page) :
  (truthy (fullName (form p)) = true ->
   truthy (fullName (form (settle (parseResume_callbacks parse_markup) r p)))
   = true)
  /\ (truthy (email (form p)) = true ->
      truthy (email (form (settle (parseResume_callbacks parse_markup) r p)))
      = true)
  /\ (truthy (phone (form p)) = true ->
      truthy (phone (form (settle (parseResume_callbacks parse_markup) r p)))
      = true).
Proof.
  destruct r as [[ok n m ph sk] |]; simpl; [| tauto].
  destruct ok; [| tauto].
  destruct sk; simpl; repeat split; apply fill_keeps.
Qed.

Lemma parseResume_never_clears_witness :
  truthy
    (fullName
       (form
          (settle (parseResume_callbacks (fun _ => []))
             (Done {| rd_success := true; rd_name := Some [];
                      rd_email := None; rd_phone := None;
                      rd_skills := None |})
             (set_form
                {| resumeUpload := []; resumeFileName := [];
                   fullName := js "Ann Lee"; email := []; phone := [] |}
                blank_page)))) = true.
Proof.
  destruct (parseResume_never_clears (fun _ => [])
              (Done {| rd_success := true; rd_name := Some [];
                       rd_email := None; rd_phone := None;
                       rd_skills := None |})
              (set_form
                 {| resumeUpload := []; resumeFileName := [];
                    fullName := js "Ann Lee"; email := []; phone := [] |}
                 blank_page)) as (H & _ & _).
  apply H. reflexivity.
Defined.

Lemma add_all_tags (parse_markup : jstring -> list node)
  (l : list jstring) (e : skill_editor) :
  forallb plain_text l = true ->
  skillTags (fold_left (fun e skill => addSkillTag parse_markup skill e) l e)
  = option_map
      (fun children =>
         children ++ map (fun skill => tag_node (skill ++ js " ")) l)
      (skillTags e).
Proof.
  revert e. induction l as [|x l IH]; intros e H.
  - simpl. destruct (skillTags e) as [children |]; simpl;
      [rewrite app_nil_r |]; reflexivity.
  - simpl in H. apply andb_true_iff in H. destruct H as [Hx Hl].
    cbn [fold_left]. rewrite (IH _ Hl), (add_plain_any parse_markup _ e Hx).
    cbn [skillTags]. destruct (skillTags e) as [children |]; simpl;
      [rewrite <- app_assoc |]; reflexivity.
Qed.

(** X12. A successful parse whose skills are plain text appends one tag
    per returned skill after what [#skillTags] holds, in the order returned
    and without looking for duplicates, and shows one success notification;
    the same response settling twice leaves every returned skill twice. *)
Theorem parseResume_appends_skills (parse_markup : jstring -> list node)
  (p : page) (name mail tel : option jstring) (l : list jstring) :
  forallb plain_text l = true ->
  let data := {| rd_success := true; rd_name := name; rd_email := mail;
                 rd_phone := tel; rd_skills := Some l |} in
  skillTags
    (editor (settle (parseResume_callbacks parse_markup) (Done data) p))
  = option_map
      (fun children =>
         children ++ map (fun skill => tag_node (skill ++ js " ")) l)
      (skillTags (editor p))
  /\ notifications
       (settle (parseResume_callbacks parse_markup) (Done data) p)
     = {| title := js "Success!"; message := js "Resume parsed successfully.";
          type := js "success" |} :: notifications p
  /\ skillTags (editor (parsed_twice parse_markup data p))
     = option_map
         (fun children =>
            children ++ map (fun skill => tag_node (skill ++ js " ")) l
              ++ map (fun skill => tag_node (skill ++ js " ")) l)
         (skillTags (editor p)).
Proof.
  intros H data.
  assert (T : forall q,
             skillTags
               (editor
                  (settle (parseResume_callbacks parse_markup) (Done data) q))
             = option_map
                 (fun children =>
                    children
                      ++ map (fun skill => tag_node (skill ++ js " ")) l)
                 (skillTags (editor q))).
  { intros q. simpl. apply add_all_tags. exact H. }
  split; [apply T |]. split; [reflexivity |].
  unfold parsed_twice. rewrite T, T.
  destruct (skillTags (editor p)) as [children |]; simpl;
    [rewrite <- app_assoc |]; reflexivity.
Qed.

Lemma parseResume_appends_skills_witness :
  skillTags
    (editor
       (settle (parseResume_callbacks (fun _ => []))
          (Done {| rd_success := true; rd_name := None; rd_email := None;
                   rd_phone := None; rd_skills := Some [js "Go"; js "C#"] |})
          blank_page))
  = Some [tag_node (js "Go "); tag_node (js "C# ")].
Proof.
  destruct (@parseResume_appends_skills (fun _ => []) blank_page
              None None None [js "Go"; js "C#"]) as (H & _ & _).
  - reflexivity.
  - rewrite H. reflexivity.
Defined.

End ParseMore.

(** ** More on the load-more control *)

Section LoadMoreMore.

Lemma unhandled_step (ev : pager_event) (st : page * list request) :
  unhandled ev = true -> pager_step st ev = st.
Proof.
  destruct st as [p sent].
  destruct ev as [|[[[l |]] |]]; simpl; intros H;
    try discriminate H; reflexivity.
Qed.

Lemma unhandled_run (evs : list pager_event) (st : page * list request) :
  forallb unhandled evs = true -> fold_left pager_step evs st = st.
Proof.
  revert st. induction evs as [|ev evs IH]; intros st H; [reflexivity |].
  simpl in H. apply andb_true_iff in H. destruct H as [Hev Hevs].
  cbn [fold_left]. rewrite (unhandled_step ev st Hev). apply IH. exact Hevs.
Qed.

(** X13. After a click, as long as the jobs request only fails or answers
    without a [jobs] array, the control stays disabled with the loading
    indicator: no callback handles these outcomes. *)
Theorem loadMore_stays_loading (p : page) (evs : list pager_event) :
  forallb unhandled evs = true ->
  the_button (fst (run_pager (Click :: evs) p))
  = {| attached := attached (the_button p); disabled := true;
       content := loading_markup |}.
Proof.
  intros H. unfold run_pager. cbn [fold_left].
  rewrite (unhandled_run evs _ H). reflexivity.
Qed.

Lemma loadMore_stays_loading_witness :
  the_button
    (fst (run_pager
            [Click; Settled Failed; Settled (Done {| jobs := None |})]
            blank_page))
  = {| attached := true; disabled := true; content := loading_markup |}.
Proof.
  apply (loadMore_stays_loading blank_page
           [Settled Failed; Settled (Done {| jobs := None |})]).
  reflexivity.
Defined.

End LoadMoreMore.

(** ** Notification polling *)

Section Polling.

Lemma poll_step (r : ajax_result Z) (p : page) :
  let p' := settle checkNotifications_callbacks r p in
  notifications p' = notifications p
  /\ Notification_permission (notify p') = Notification_permission (notify p)
  /\ notificationBadge_shown (notify p')
     = notificationBadge_shown (notify p) || reports_unread r
  /\ List.length (desktop (notify p'))
     = List.length (desktop (notify p))
       + match Notification_permission (notify p) with
         | Granted => if reports_unread r then 1 else 0
         | _ => 0
         end.
Proof.
  destruct r as [count |]; simpl.
  - destruct (0 <? count)%Z; simpl.
    + rewrite orb_true_r.
      destruct (Notification_permission (notify p)); simpl;
        repeat split; lia.
    + rewrite orb_false_r.
      destruct (Notification_permission (notify p)); repeat split; lia.
  - rewrite orb_false_r.
    destruct (Notification_permission (notify p)); repeat split; lia.
Qed.

Lemma quiet_poll (r : ajax_result Z) (p : page) :
  reports_unread r = false -> settle checkNotifications_callbacks r p = p.
Proof.
  destruct r as [count |]; simpl; intros H; [rewrite H |]; reflexivity.
Qed.

Lemma quiet_polls (rs : list (ajax_result Z)) (p : page) :
  forallb (fun r => negb (reports_unread r)) rs = true ->
  run_polls rs p = p.
Proof.
  revert p. induction rs as [|r rs IH]; intros p H; [reflexivity |].
  simpl in H. apply andb_true_iff in H. destruct H as [Hr Hrs].
  apply negb_true_iff in Hr. unfold run_polls in *. cbn [fold_left].
  rewrite (quiet_poll r p Hr). apply IH. exact Hrs.
Qed.

(** X14. The badge is never hidden or reset: after a poll that reports
    [count] unread notifications, polls that fail or report none leave the
    badge shown with that count. *)
Theorem badge_keeps_last_count (p : page) (count : Z)
  (rs : list (ajax_result Z)) :
  (0 < count)%Z ->
  forallb (fun r => negb (reports_unread r)) rs = true ->
  notificationBadge (notify (run_polls (Done count :: rs) p))
  = Number_toString (Int count)
  /\ notificationBadge_shown (notify (run_polls (Done count :: rs) p))
     = true.
Proof.
  intros Hc Hq. unfold run_polls. cbn [fold_left].
  fold (run_polls rs (settle checkNotifications_callbacks (Done count) p)).
  rewrite (quiet_polls rs _ Hq). simpl.
  apply Z.ltb_lt in Hc. rewrite Hc. split; reflexivity.
Qed.

Lemma badge_keeps_last_count_witness :
  notificationBadge
    (notify (run_polls [Done 3%Z; Done 0%Z; Failed] blank_page)) = js "3"
  /\ notificationBadge_shown
       (notify (run_polls [Done 3%Z; Done 0%Z; Failed] blank_page)) = true.
Proof.
  apply (@badge_keeps_last_count blank_page 3%Z [Done 0%Z; Failed]).
  - reflexivity.
  - reflexivity.
Defined.

(** X15. Over any sequence of polls the banner is never touched, the badge
    is shown exactly when it was shown before or some poll reported unread
    notifications, and the desktop notifications raised number the polls
    that reported some when permission is granted, none otherwise. *)
Theorem polls_accumulate (rs : list (ajax_result Z)) (p : page) :
  notifications (run_polls rs p) = notifications p
  /\ notificationBadge_shown (notify (run_polls rs p))
     = notificationBadge_shown (notify p) || existsb reports_unread rs
  /\ List.length (desktop (notify (run_polls rs p)))
     = List.length (desktop (notify p))
       + match Notification_permission (notify p) with
         | Granted => List.length (filter reports_unread rs)
         | _ => 0
         end.
Proof.
  revert p. induction rs as [|r rs IH]; intros p.
  - simpl. rewrite orb_false_r.
    destruct (Notification_permission (notify p)); repeat split; lia.
  - unfold run_polls in *. cbn [fold_left].
    destruct (IH (settle checkNotifications_callbacks r p)) as (In & Is & Id).
    destruct (poll_step r p) as (Sn & Sp & Ss & Sd). cbn zeta in *.
    rewrite In, Is, Id, Sn, Sp, Ss, Sd. cbn [existsb filter].
    rewrite orb_assoc. split; [reflexivity |]. split; [reflexivity |].
    destruct (Notification_permission (notify p)), (reports_unread r);
      simpl; lia.
Qed.

(** X16. A page load never both starts the polling and asks for
    permission: polling needs permission granted at document ready, asking
    needs it undecided at window load. So the visit on which the user
    grants permission does not poll, and without the Notification interface
    neither happens. *)
Theorem asking_excludes_polling (has_Notification : bool)
  (perm answer : permission) :
  starts_polling has_Notification perm
  && fst (fst (requestNotificationPermission has_Notification perm answer))
  = false
  /\ starts_polling false perm = false
  /\ requestNotificationPermission false perm answer = (false, perm, []).
Proof.
  destruct has_Notification, perm; repeat split; reflexivity.
Qed.

End Polling.

(** ** More on relative time *)

Section RelativeTimeMore.
Local Open Scope Z_scope.

(** X17. An invalid date is not reported as an error: every comparison
    with NaN fails and the result is [NaN years ago], whatever the time. *)
Theorem daysAgo_invalid_date (now : Z) :
  daysAgo now None = js "NaN years ago".
Proof. reflexivity. Qed.

Lemma ends_in_o (x u : jstring) : x ++ u ++ [111%N] <> js "Today".
Proof.
  intros H. apply (f_equal (fun l => last l 0%N)) in H.
  rewrite app_assoc, last_last in H. discriminate H.
Qed.

(** X18. [Today] is returned only for the very instant: any other date
    within 24 hours of now, before or after, gives [Yesterday]. *)
Theorem daysAgo_today_is_now (now date : Z) :
  (daysAgo now (Some date) = js "Today" <-> date = now)
  /\ (0 < Z.abs (now - date) <= MS_PER_DAY ->
      daysAgo now (Some date) = js "Yesterday").
Proof.
  pose proof (ceil_div_day (Z.abs (now - date))) as Hc.
  unfold daysAgo, diffDays, num_eqb, num_ltb, floor_div.
  set (d := ceil_div (Z.abs (now - date)) MS_PER_DAY) in *.
  unfold MS_PER_DAY in Hc |- *.
  split; [split |].
  - destruct (Z.eqb_spec d 0) as [E0 | N0]; [intros _; lia |].
    destruct (Z.eqb_spec d 1) as [E1 | N1]; [intros T; discriminate T |].
    destruct (Z.ltb_spec d 7) as [L7 | G7];
      [change (js " days ago") with (js " days ag" ++ [111%N]);
       intros T; destruct (ends_in_o _ _ T) |].
    destruct (Z.ltb_spec d 30) as [L30 | G30];
      [change (js " weeks ago") with (js " weeks ag" ++ [111%N]);
       intros T; destruct (ends_in_o _ _ T) |].
    destruct (Z.ltb_spec d 365) as [L365 | G365];
      [change (js " months ago") with (js " months ag" ++ [111%N])
      |change (js " years ago") with (js " years ag" ++ [111%N])];
      intros T; destruct (ends_in_o _ _ T).
  - intros E. subst date.
    destruct (Z.eqb_spec d 0) as [_ | N0]; [reflexivity |].
    exfalso. apply N0. replace (now - now) with 0 in Hc by lia.
    simpl in Hc. lia.
  - intros B.
    destruct (Z.eqb_spec d 0) as [E0 | N0]; [lia |].
    destruct (Z.eqb_spec d 1) as [E1 | N1]; [reflexivity | lia].
Qed.

Lemma daysAgo_today_is_now_witness :
  daysAgo 1700000000000 (Some 1699999999999) = js "Yesterday".
Proof.
  destruct (daysAgo_today_is_now 1700000000000 1699999999999) as [_ H].
  apply H. vm_compute. split; [reflexivity | discriminate].
Defined.

(** X19. For a valid date the result is [Today], [Yesterday], or a count
    with a unit, and the count is never 0: 2 to 6 days, 1 to 4 weeks, 1 to
    12 months, or at least 1 year. *)
Theorem daysAgo_range (now date : Z) :
  daysAgo now (Some date) = js "Today"
  \/ daysAgo now (Some date) = js "Yesterday"
  \/ exists n : Z,
       (2 <= n <= 6
        /\ daysAgo now (Some date)
           = Number_toString (Int n) ++ js " days ago")
       \/ (1 <= n <= 4
           /\ daysAgo now (Some date)
              = Number_toString (Int n) ++ js " weeks ago")
       \/ (1 <= n <= 12
           /\ daysAgo now (Some date)
              = Number_toString (Int n) ++ js " months ago")
       \/ (1 <= n
           /\ daysAgo now (Some date)
              = Number_toString (Int n) ++ js " years ago").
Proof.
  pose proof (ceil_div_day (Z.abs (now - date))) as Hc.
  unfold daysAgo, diffDays, num_eqb, num_ltb, floor_div.
  set (d := ceil_div (Z.abs (now - date)) MS_PER_DAY) in *.
  unfold MS_PER_DAY in Hc.
  destruct (Z.eqb_spec d 0); [left; reflexivity |].
  destruct (Z.eqb_spec d 1); [right; left; reflexivity |].
  right; right.
  destruct (Z.ltb_spec d 7).
  { exists d. left. split; [lia | reflexivity]. }
  destruct (Z.ltb_spec d 30).
  { exists (d / 7). right; left. split; [| reflexivity].
    pose proof (Z.div_mod d 7 ltac:(lia)).
    pose proof (Z.mod_pos_bound d 7 ltac:(lia)). lia. }
  destruct (Z.ltb_spec d 365).
  { exists (d / 30). right; right; left. split; [| reflexivity].
    pose proof (Z.div_mod d 30 ltac:(lia)).
    pose proof (Z.mod_pos_bound d 30 ltac:(lia)). lia. }
  exists (d / 365). right; right; right. split; [| reflexivity].
  pose proof (Z.div_mod d 365 ltac:(lia)).
  pose proof (Z.mod_pos_bound d 365 ltac:(lia)). lia.
Qed.

End RelativeTimeMore.

(** ** Scroll reveal *)

Section ScrollReveal.
Variable num : Type.
Variable add : num -> num -> num.
Variables gt lt : num -> num -> bool.

Lemma on_scroll_revealed (w : viewport num) (els : list (element num)) :
  on_scroll add gt lt w els = map (revealed add gt lt [w]) els.
Proof.
  unfold on_scroll. apply map_ext. intros [t h a].
  unfold reveal, revealed. cbn [existsb offset_top outerHeight animated].
  rewrite orb_false_r.
  destruct (in_view add gt lt w {| offset_top := t; outerHeight := h;
                                   animated := a |});
    [rewrite orb_true_r | rewrite orb_false_r]; reflexivity.
Qed.

(** X20. After the scroll handler has run at any sequence of scroll
    positions, each element keeps its place and size and carries the class
    [animated] exactly when it carried it before or was in view at one of
    the positions: the class is never taken away, and the order of the
    positions does not matter. *)
Theorem scroll_through_reveals (ws : list (viewport num))
  (els : list (element num)) :
  scroll_through add gt lt ws els
  = map (fun el =>
           {| offset_top := offset_top el; outerHeight := outerHeight el;
              animated :=
                animated el
                || existsb (fun w => in_view add gt lt w el) ws |}) els.
Proof.
  change (scroll_through add gt lt ws els
          = map (revealed add gt lt ws) els).
  revert els. induction ws as [|w ws IH]; intros els.
  - simpl. rewrite <- (map_id els) at 1. apply map_ext.
    intros [t h a]. unfold revealed. simpl. rewrite orb_false_r.
    reflexivity.
  - unfold scroll_through in *. cbn [fold_left].
    rewrite IH, on_scroll_revealed, map_map. apply map_ext.
    intros [t h a]. unfold revealed, in_view. simpl.
    rewrite orb_false_r, orb_assoc. reflexivity.
Qed.

End ScrollReveal.
